(** * ash-reporter: findings aggregation, filtering and report assembly

    A shallow embedding of the core of the ASH security report viewer:

    - [Ash]            the data model of [src/types/ash.ts];
    - [Utils]          the severity table of [src/lib/utils.ts];
    - [SummaryCards]   the per-severity tally of [src/components/SummaryCards.tsx];
    - [FindingsTable]  the filtered view, the tool tabs and the selection
                       state of [src/components/FindingsTable.tsx];
    - [App]            the start-up data loading of [src/App.tsx];
    - [GenerateReport] the build-time assembler [scripts/generate-report.js].

    JavaScript strings that are only compared (tool names, severities,
    property keys, paths) are [string]; texts that are searched and spliced
    (the template and the files it inlines) are [list ascii].  A text is read
    as its UTF-8 bytes: every pattern the program searches for is ASCII, and
    an ASCII byte never occurs inside a multi-byte sequence, so searching
    bytes and searching UTF-16 code units find the same occurrences. *)

From Stdlib Require Import Ascii String.
From stdpp Require Import gmap strings list.

(** ** The fragment of the JavaScript library the program calls *)

Module JS.

(** [Array.prototype.includes] on strings: strict equality. *)
Fixpoint includes (l : list string) (x : string) : bool :=
  match l with
  | [] => false
  | y :: l' => if decide (y = x) then true else includes l' x
  end.

(** [Array.prototype.filter]. *)
Fixpoint Array_filter {A} (p : A → bool) (l : list A) : list A :=
  match l with
  | [] => []
  | x :: l' => if p x then x :: Array_filter p l' else Array_filter p l'
  end.

(** [Array.prototype.find]; [None] is [undefined]. *)
Fixpoint find {A} (p : A → bool) (l : list A) : option A :=
  match l with
  | [] => None
  | x :: l' => if p x then Some x else find p l'
  end.

(** [Array.prototype.indexOf] on strings. *)
Fixpoint Array_indexOf (l : list string) (x : string) : option nat :=
  match l with
  | [] => None
  | y :: l' => if decide (y = x) then Some 0 else S <$> Array_indexOf l' x
  end.

(** A [Set] of strings keeps its members in insertion order; [add] of a
    member that is already there changes nothing. *)
Definition Set_add (s : list string) (x : string) : list string :=
  if includes s x then s else s ++ [x].

(** [[...new Set(iterable)]]: the members in insertion order. *)
Definition Set_from (l : list string) : list string :=
  foldl Set_add [] l.

(** *** A plain object used as a counter table

    [{}] inherits from [Object.prototype], so reading a key that is not
    an own property can still find something.  The values the tally can
    meet are numbers and, for the inherited keys only, things that are
    not numbers: the inherited function or object itself, and the
    non-empty text that [+ 1] makes of it.  Both are truthy and [+ 1]
    keeps them of that kind, so one constructor stands for them.
    Counts are array lengths at most, far below 2^53, where adding one
    to a double is exact: [nat] is the type of the numbers. *)
Inductive value :=
| VNum (n : nat)
| VNotNum.

Definition Object_prototype_keys : list string :=
  [ "constructor"; "__defineGetter__"; "__defineSetter__"; "hasOwnProperty";
    "__lookupGetter__"; "__lookupSetter__"; "isPrototypeOf";
    "propertyIsEnumerable"; "toString"; "valueOf"; "__proto__";
    "toLocaleString" ]%string.

(** [obj[key]]: own property first, then the prototype. *)
Definition get (obj : gmap string value) (key : string) : option value :=
  match obj !! key with
  | Some v => Some v
  | None => if includes Object_prototype_keys key then Some VNotNum else None
  end.

(** [obj[key] = v] for a primitive [v]: an own property is created or
    overwritten, except that [__proto__] is an accessor whose setter
    ignores primitives. *)
Definition set (obj : gmap string value) (key : string) (v : value)
  : gmap string value :=
  if decide (key = "__proto__"%string) then obj else <[key := v]> obj.

(** [v || 0] *)
Definition or_zero (v : option value) : value :=
  match v with
  | None => VNum 0
  | Some (VNum 0) => VNum 0
  | Some v => v
  end.

(** [v + 1] *)
Definition plus_one (v : value) : value :=
  match v with
  | VNum n => VNum (S n)
  | VNotNum => VNotNum
  end.

(** Truthiness of a string. *)
Definition truthy (s : string) : bool :=
  match s with
  | EmptyString => false
  | _ => true
  end.

(** *** Texts *)

Definition text := list ascii.

Definition lit (s : string) : text := list_ascii_of_string s.

(** [s.startsWith(search)] *)
Fixpoint startsWith (search s : text) : bool :=
  match search, s with
  | [], _ => true
  | _ :: _, [] => false
  | c :: search', d :: s' => bool_decide (c = d) && startsWith search' s'
  end.

(** [s.endsWith(search)]: the last [search.length] units of [s] are
    [search]. *)
Definition endsWith (search s : text) : bool :=
  bool_decide (length search ≤ length s)
  && bool_decide (drop (length s - length search) s = search).

(** [s.indexOf(search)]: the position of the first occurrence; [None]
    is -1. *)
Fixpoint indexOf (s search : text) : option nat :=
  if startsWith search s then Some 0
  else match s with
       | [] => None
       | _ :: s' => S <$> indexOf s' search
       end.

(** [GetSubstitution] of ECMA-262 for a string pattern: there are no
    captures and no named groups, so of the dollar forms only [$$], [$&],
    [$`] and [$'] are replaced; a dollar before a digit, before [<] or
    before anything else stands for itself. *)
Fixpoint GetSubstitution (matched preceding following replacement : text)
  : text :=
  match replacement with
  | [] => []
  | c :: rest =>
      if decide (c = "$"%char) then
        match rest with
        | [] => [c]
        | d :: rest' =>
            if decide (d = "$"%char) then
              "$"%char :: GetSubstitution matched preceding following rest'
            else if decide (d = "&"%char) then
              matched ++ GetSubstitution matched preceding following rest'
            else if decide (d = "`"%char) then
              preceding ++ GetSubstitution matched preceding following rest'
            else if decide (d = "'"%char) then
              following ++ GetSubstitution matched preceding following rest'
            else
              c :: GetSubstitution matched preceding following rest
        end
      else c :: GetSubstitution matched preceding following rest
  end.

(** [s.replace(search, replacement)] with a string pattern: the first
    occurrence only. *)
Definition replace (s search replacement : text) : text :=
  match indexOf s search with
  | None => s
  | Some pos =>
      let preceding := take pos s in
      let following := drop (pos + length search) s in
      preceding ++ GetSubstitution search preceding following replacement
                ++ following
  end.

End JS.

(** ** [src/types/ash.ts] *)

Module Ash.

(** [SeverityLevel] is a union of four string literals; the type is
    erased at run time and the data comes from [JSON.parse], so a
    severity is whatever string the payload carries. *)
Abbreviation SeverityLevel := string.

Definition CRITICAL : SeverityLevel := "CRITICAL".
Definition HIGH : SeverityLevel := "HIGH".
Definition MEDIUM : SeverityLevel := "MEDIUM".
Definition LOW : SeverityLevel := "LOW".

(** Optional fields are [option]s: absent is not the empty string.
    [score] is kept as the decimal text of the payload. *)
Record Finding := {
  tool : string;
  severity : SeverityLevel;
  message : string;
  location : string;
  description : option string;
  recommendation : option string;
  lineNumber : option nat;
  pattern : option string;
  cve : option string;
  score : option string;
}.

Record ScanMetadata := {
  scanDate : string;
  totalFindings : nat;
  tools : list string;
  duration : option nat;
  version : option string;
}.

Record ASHReport := {
  findings : list Finding;
  metadata : ScanMetadata;
}.

Record SeverityConfig := {
  color : string;
  icon : string;
  priority : nat;
}.

End Ash.

(** ** [src/lib/utils.ts] *)

Module Utils.
Import Ash.

(** An object literal keeps its string keys in the order they are
    written: the table is the list [Object.entries] returns. *)
Definition severityConfig : list (SeverityLevel * SeverityConfig) :=
  [ (CRITICAL, {| color := "bg-red-100 text-red-800 border-red-300";
                  icon := "🔴";
                  priority := 4 |});
    (HIGH,     {| color := "bg-orange-100 text-orange-800 border-orange-300";
                  icon := "🟠";
                  priority := 3 |});
    (MEDIUM,   {| color := "bg-yellow-100 text-yellow-800 border-yellow-300";
                  icon := "🟡";
                  priority := 2 |});
    (LOW,      {| color := "bg-green-100 text-green-800 border-green-300";
                  icon := "🟢";
                  priority := 1 |}) ].

(** [severityConfig[key]] for an own key. *)
Fixpoint lookup_config (table : list (SeverityLevel * SeverityConfig))
    (key : string) : option SeverityConfig :=
  match table with
  | [] => None
  | (k, c) :: table' => if decide (k = key) then Some c else lookup_config table' key
  end.

Definition known_severities : list SeverityLevel := severityConfig.*1.

End Utils.

(** ** [src/components/SummaryCards.tsx] *)

Module SummaryCards.
Import Ash Utils.

(** The callback of [findings.reduce]. *)
Definition tally (acc : gmap string JS.value) (finding : Finding)
  : gmap string JS.value :=
  JS.set acc (severity finding)
    (JS.plus_one (JS.or_zero (JS.get acc (severity finding)))).

(** [const counts = findings.reduce(..., {})] *)
Definition counts (findings : list Finding) : gmap string JS.value :=
  foldl tally ∅ findings.

Definition getSeverityVariant (severity : SeverityLevel) : string :=
  if decide (severity = CRITICAL) then "error"
  else if decide (severity = HIGH) then "warning"
  else if decide (severity = MEDIUM) then "warning"
  else if decide (severity = LOW) then "success"
  else "default".

(** What one card shows. *)
Record Card := {
  card_severity : string;
  card_icon : string;
  card_variant : string;
  card_count : JS.value;
  card_noun : string;
}.

(** [const count = counts[severityKey] || 0] *)
Definition count (cs : gmap string JS.value) (severityKey : string) : JS.value :=
  JS.or_zero (JS.get cs severityKey).

(** The component: one card per entry of the severity table, in the
    table's order. *)
Definition SummaryCards (findings : list Finding) : list Card :=
  let cs := counts findings in
  (λ '(severity, config),
     let n := count cs severity in
     {| card_severity := severity;
        card_icon := icon config;
        card_variant := getSeverityVariant severity;
        card_count := n;
        card_noun := match n with JS.VNum 1 => "finding" | _ => "findings" end |})
  <$> severityConfig.

End SummaryCards.

(** ** [src/components/FindingsTable.tsx] *)

Module FindingsTable.
Import Ash Utils.

(** The component's state. *)
Record State := {
  selectedFinding : option Finding;
  activeTab : string;
  severityFilter : list SeverityLevel;
}.

(** The three [useState] initial values. *)
Definition initial : State :=
  {| selectedFinding := None;
     activeTab := "all";
     severityFilter := [CRITICAL; HIGH; MEDIUM; LOW] |}.

(** The predicate handed to [findings.filter]. *)
Definition matches (activeTab : string) (severityFilter : list SeverityLevel)
    (finding : Finding) : bool :=
  let matchesTab :=
    bool_decide (activeTab = "all"%string) || bool_decide (tool finding = activeTab) in
  let matchesSeverity := JS.includes severityFilter (severity finding) in
  matchesTab && matchesSeverity.

Definition filteredFindings (findings : list Finding) (activeTab : string)
    (severityFilter : list SeverityLevel) : list Finding :=
  JS.Array_filter (matches activeTab severityFilter) findings.

(** [const tools = [...new Set(findings.map(f => f.tool))]] *)
Definition tools (findings : list Finding) : list string :=
  JS.Set_from (tool <$> findings).

(** The updater of a severity button's [onClick]. *)
Definition toggle (prev : list SeverityLevel) (severityKey : SeverityLevel)
  : list SeverityLevel :=
  if JS.includes prev severityKey
  then JS.Array_filter (λ s, negb (bool_decide (s = severityKey))) prev
  else prev ++ [severityKey].

(** What the user can do.  There is one severity button per key of the
    severity table, an "All Tools" tab, one tab per tool of the findings,
    a "View Details" button per row of the filtered view, and the dialog
    can be closed. *)
Inductive step (findings : list Finding) : State → State → Prop :=
| click_severity st severityKey :
    severityKey ∈ known_severities →
    step findings st
      {| selectedFinding := selectedFinding st;
         activeTab := activeTab st;
         severityFilter := toggle (severityFilter st) severityKey |}
| click_all_tools st :
    step findings st
      {| selectedFinding := selectedFinding st;
         activeTab := "all";
         severityFilter := severityFilter st |}
| click_tool st t :
    t ∈ tools findings →
    step findings st
      {| selectedFinding := selectedFinding st;
         activeTab := t;
         severityFilter := severityFilter st |}
| view_details st finding :
    finding ∈ filteredFindings findings (activeTab st) (severityFilter st) →
    step findings st
      {| selectedFinding := Some finding;
         activeTab := activeTab st;
         severityFilter := severityFilter st |}
| close_dialog st :
    step findings st
      {| selectedFinding := None;
         activeTab := activeTab st;
         severityFilter := severityFilter st |}.

(** The states the component can be in. *)
Definition reachable (findings : list Finding) (st : State) : Prop :=
  rtc (step findings) initial st.

End FindingsTable.

(** ** [src/App.tsx] *)

Module App.
Import Ash.

Section Loading.
(** [JSON.parse] cast to [ASHReport]: [None] is a [SyntaxError].  The
    cast checks nothing; a text that parses to something else than a
    report is outside this model. *)
Variable JSON_parse : string → option ASHReport.
(** [new Date().toISOString()] when the effect runs. *)
Variable now : string.

Definition sampleData : ASHReport :=
  {| findings :=
       [ {| tool := "Grype";
            severity := "CRITICAL";
            message := "Vulnerability CVE-2025-1234 in libfoo";
            location := "package.json";
            description := Some
              "A critical vulnerability has been discovered in libfoo that could allow remote code execution.";
            recommendation := Some "Upgrade to version 2.3.4 or later";
            lineNumber := None;
            pattern := None;
            cve := Some "CVE-2025-1234";
            score := None |};
         {| tool := "git-secrets";
            severity := "HIGH";
            message := "AWS secret detected";
            location := "src/config.js";
            description := Some "AWS access key detected in source code.";
            recommendation := Some
              "Remove the hardcoded AWS access key and use environment variables or AWS IAM roles.";
            lineNumber := Some 42;
            pattern := Some "AKIA[0-9A-Z]{16}";
            cve := None;
            score := None |};
         {| tool := "Semgrep";
            severity := "MEDIUM";
            message := "Potential SQL injection vulnerability";
            location := "src/database.js";
            description := Some "User input is directly concatenated into SQL query.";
            recommendation := Some "Use parameterized queries or prepared statements.";
            lineNumber := Some 128;
            pattern := None;
            cve := None;
            score := None |};
         {| tool := "CDK-nag";
            severity := "LOW";
            message := "S3 bucket versioning not enabled";
            location := "infrastructure/s3-bucket.ts";
            description := Some "S3 bucket does not have versioning enabled.";
            recommendation := Some
              "Enable versioning for better data protection and recovery options.";
            lineNumber := None;
            pattern := None;
            cve := None;
            score := None |} ];
     metadata :=
       {| scanDate := now;
          totalFindings := 4;
          tools := ["Grype"; "git-secrets"; "Semgrep"; "CDK-nag"]%string;
          duration := None;
          version := None |} |}.

(** The two [useState] cells and what the effect logged with
    [console.error]. *)
Record State := {
  data : option ASHReport;
  loading : bool;
  errors : list string;
}.

Definition initial : State :=
  {| data := None; loading := true; errors := [] |}.

(** The body of the [useEffect] callback.  [element] is the text
    content of the element whose id is [ash-data], [None] when the
    document has no such element. *)
Definition effect (element : option string) (st : State) : State :=
  let jsonData := element in
  let st' :=
    match jsonData with
    | Some jsonData =>
        if JS.truthy jsonData then
          match JSON_parse jsonData with
          | Some parsed =>
              {| data := Some parsed; loading := loading st; errors := errors st |}
          | None =>
              {| data := data st; loading := loading st;
                 errors := errors st ++ ["Failed to parse ASH data:"%string] |}
          end
        else {| data := Some sampleData; loading := loading st; errors := errors st |}
    | None => {| data := Some sampleData; loading := loading st; errors := errors st |}
    end in
  {| data := data st'; loading := false; errors := errors st' |}.

(** What the component returns. *)
Inductive View :=
| LoadingView
| NoDataAvailable
| ReportView (totalShown : nat) (report : ASHReport).

Definition render (st : State) : View :=
  if loading st then LoadingView
  else match data st with
       | None => NoDataAvailable
       | Some data => ReportView (length (findings data)) data
       end.

(** The page once the effect has run. *)
Definition App (element : option string) : View :=
  render (effect element initial).

End Loading.

End App.

(** ** [scripts/generate-report.js] *)

Module GenerateReport.
Import JS.

(** Attribute values of the template stand between double quotes. *)
Definition dq : ascii := "034"%char.
Definition quoted (s : string) : text := dq :: lit s ++ [dq].

Definition ASH_DATA : text := lit "__ASH_DATA__".
Definition CSS_SECTION : text := lit "__CSS_SECTION__".
Definition JS_CONTENT : text := lit "__JS_CONTENT__".

(** The template literal. *)
Definition template : text :=
  lit "<!DOCTYPE html>
<html lang=" ++ quoted "en" ++ lit ">
<head>
  <meta charset=" ++ quoted "UTF-8" ++ lit ">
  <meta name=" ++ quoted "viewport" ++ lit " content="
    ++ quoted "width=device-width, initial-scale=1.0" ++ lit ">
  <title>ASH Security Report</title>__CSS_SECTION__
</head>
<body>
  <div id=" ++ quoted "app" ++ lit "></div>
  <script id=" ++ quoted "ash-data" ++ lit " type=" ++ quoted "application/json"
    ++ lit ">__ASH_DATA__</script>
  <script>
__JS_CONTENT__
  </script>
</body>
</html>".

(** [const html = template.replace(...).replace(...).replace(...)] *)
Definition html (ashData cssSection jsContent : text) : text :=
  replace
    (replace
       (replace template ASH_DATA ashData)
       CSS_SECTION cssSection)
    JS_CONTENT jsContent.

(** The style block built around the content of the CSS file. *)
Definition style_block (cssContent : text) : text :=
  lit "
  <style>
" ++ cssContent ++ lit "
  </style>".

(** [path.join] of segments that need no normalising. *)
Definition join (segments : list string) : string :=
  String.concat "/" segments.

(** The part of Node the script uses.  An operation that throws
    returns the message of its error.  A write that fails may still
    have changed the file system. *)
Class Node (World : Type) := {
  cwd : World → string;
  readdirSync : World → string → string + list string;
  readFileSync : World → string → string + text;
  writeFileSync : World → string → text → option string * World;
}.

Record Assets := {
  css : option string;
  js : string;
}.

Section Script.
Context {World : Type} `{!Node World}.

(** A computation reads and changes the world and either returns or
    throws an error with a message. *)
Definition io (A : Type) : Type := World → (string + A) * World.

Definition ret {A} (a : A) : io A := λ w, (inr a, w).
Definition throw {A} (message : string) : io A := λ w, (inl message, w).
Definition bind {A B} (m : io A) (k : A → io B) : io B :=
  λ w, match m w with
       | (inr a, w') => k a w'
       | (inl message, w') => (inl message, w')
       end.

#[local] Instance io_ret : MRet io := @ret.
#[local] Instance io_bind : MBind io := λ A B k m, bind m k.

Definition process_cwd : io string := λ w, (inr (cwd w), w).
Definition readdir (path : string) : io (list string) :=
  λ w, (readdirSync w path, w).
Definition readFile (path : string) : io text :=
  λ w, (readFileSync w path, w).
Definition writeFile (path : string) (content : text) : io () :=
  λ w, match writeFileSync w path content with
       | (None, w') => (inr (), w')
       | (Some message, w') => (inl message, w')
       end.

Definition findAssetFiles : io Assets :=
  here ← process_cwd;
  let assetsDir := join [here; "dist"; "assets"]%string in
  files ← readdir assetsDir;
  let cssFile := find (λ file, endsWith (lit ".css") (lit file)) files in
  let jsFile := find (λ file, endsWith (lit ".js") (lit file)) files in
  match jsFile with
  | Some jsFile =>
      if truthy jsFile then
        ret {| css := match cssFile with
                      | Some cssFile =>
                          if truthy cssFile then Some (join [assetsDir; cssFile])
                          else None
                      | None => None
                      end;
               js := join [assetsDir; jsFile] |}
      else throw ("Missing JavaScript bundle: " +:+ String.concat ", " files)
  | None => throw ("Missing JavaScript bundle: " +:+ String.concat ", " files)
  end.

(** Console output is left out; the returned value is the [html]
    handed to [writeFileSync]. *)
Definition generateReport (ashDataPath outputPath : string) : io text :=
  assets ← findAssetFiles;
  ashData ← readFile ashDataPath;
  jsContent ← readFile (js assets);
  cssSection ←
    match css assets with
    | Some cssPath =>
        if truthy cssPath then
          cssContent ← readFile cssPath;
          ret (style_block cssContent)
        else ret []
    | None => ret []
    end;
  let html := html ashData cssSection jsContent in
  _ ← writeFile outputPath html;
  ret html.

(** How the process ends: its exit status, the message printed on
    standard error if any, and the world it leaves. *)
Record Outcome := {
  exitCode : nat;
  stderr : option string;
  world : World;
}.

(** The top level of the script; [argv] is [process.argv], whose
    first two entries are the interpreter and the script. *)
Definition main (argv : list string) (w : World) : Outcome :=
  if bool_decide (length argv < 3) then
    {| exitCode := 1; stderr := None; world := w |}
  else
    let ashDataPath := argv !!! 2 in
    let outputPath :=
      match argv !! 3 with
      | Some given => if truthy given then given else "ash-security-report.html"%string
      | None => "ash-security-report.html"%string
      end in
    match generateReport ashDataPath outputPath w with
    | (inr _, w') => {| exitCode := 0; stderr := None; world := w' |}
    | (inl message, w') => {| exitCode := 1; stderr := Some message; world := w' |}
    end.

End Script.

(** *** A file system in memory

    Directories list their entries in a fixed order, files hold texts,
    and every write succeeds. *)
Record MemFS := {
  mem_cwd : string;
  mem_dirs : gmap string (list string);
  mem_files : gmap string text;
}.

#[export] Instance MemFS_Node : Node MemFS := {|
  cwd w := mem_cwd w;
  readdirSync w path :=
    match mem_dirs w !! path with
    | Some entries => inr entries
    | None => inl ("ENOENT: no such file or directory, scandir " +:+ path)
    end;
  readFileSync w path :=
    match mem_files w !! path with
    | Some content => inr content
    | None => inl ("ENOENT: no such file or directory, open " +:+ path)
    end;
  writeFileSync w path content :=
    (None, {| mem_cwd := mem_cwd w;
              mem_dirs := mem_dirs w;
              mem_files := <[path := content]> (mem_files w) |});
|}.

End GenerateReport.

(** ** Notions the statements use *)

Module Spec.
Import Ash Utils.

(** The number of findings whose severity is exactly [k]. *)
Definition occurrences (k : SeverityLevel) (findings : list Finding) : nat :=
  length (filter (λ f, severity f = k) findings).

(** The findings whose severity is one of the four of the table. *)
Definition recognized (findings : list Finding) : list Finding :=
  filter (λ f, severity f ∈ known_severities) findings.

(** A finding that only has a tool and a severity to tell. *)
Definition finding_of (t : string) (s : SeverityLevel) : Finding :=
  {| tool := t; severity := s; message := "m"; location := "l";
     description := None; recommendation := None; lineNumber := None;
     pattern := None; cve := None; score := None |}.

(** A finding whose severity is none of the four. *)
Definition info_finding : Finding := finding_of "Bandit" "INFO".

(** Two critical findings of one tool, then a high and a low one of
    another. *)
Definition four_findings : list Finding :=
  [ finding_of "Grype" CRITICAL; finding_of "Grype" CRITICAL;
    finding_of "git-secrets" HIGH; finding_of "git-secrets" LOW ].

(** A parser that accepts nothing. *)
Definition reject : string → option ASHReport := λ _, None.

End Spec.

(** The template cut at its three placeholders, and what the first two
    replacements put in their places. *)

Module Regions.
Import JS GenerateReport.

Definition before_css : text :=
  lit "<!DOCTYPE html>
<html lang=" ++ quoted "en" ++ lit ">
<head>
  <meta charset=" ++ quoted "UTF-8" ++ lit ">
  <meta name=" ++ quoted "viewport" ++ lit " content="
    ++ quoted "width=device-width, initial-scale=1.0" ++ lit ">
  <title>ASH Security Report</title>".

Definition css_to_data : text :=
  lit "
</head>
<body>
  <div id=" ++ quoted "app" ++ lit "></div>
  <script id=" ++ quoted "ash-data" ++ lit " type=" ++ quoted "application/json"
    ++ lit ">".

Definition data_to_js : text :=
  lit "</script>
  <script>
".

Definition after_js : text :=
  lit "
  </script>
</body>
</html>".

(** The text that takes the place of [__ASH_DATA__]. *)
Definition data_region (ashData : text) : text :=
  GetSubstitution ASH_DATA
    (before_css ++ CSS_SECTION ++ css_to_data)
    (data_to_js ++ JS_CONTENT ++ after_js)
    ashData.

(** The text that takes the place of the template's [__CSS_SECTION__]. *)
Definition css_region (ashData cssSection : text) : text :=
  GetSubstitution CSS_SECTION
    before_css
    (css_to_data ++ data_region ashData ++ data_to_js ++ JS_CONTENT ++ after_js)
    cssSection.

(** [s.includes(search)] *)
Definition occurs_in (search s : text) : Prop := is_Some (indexOf s search).

End Regions.

(** Three project directories to run the script in. *)

Module Worlds.
Import JS GenerateReport.

(** A build with one bundle and one style sheet, and the sample data. *)
Definition built : MemFS :=
  {| mem_cwd := "/work";
     mem_dirs := {[ "/work/dist/assets"%string :=
                      ["index-abc123.css"; "index-abc123.js"]%string ]};
     mem_files := {[ "/work/dist/assets/index-abc123.css"%string := lit "body{}";
                     "/work/dist/assets/index-abc123.js"%string := lit "main()";
                     "sample-ash-data.json"%string := lit "{}" ]} |}.

(** A build that left two bundles and no style sheet. *)
Definition two_bundles : MemFS :=
  {| mem_cwd := "/work";
     mem_dirs := {[ "/work/dist/assets"%string :=
                      ["index-abc123.js"; "vendor-def456.js"]%string ]};
     mem_files := {[ "/work/dist/assets/index-abc123.js"%string := lit "main()";
                     "/work/dist/assets/vendor-def456.js"%string := lit "lib()";
                     "data.json"%string := lit "{}" ]} |}.

(** A build that left a style sheet and a source map, and no bundle. *)
Definition no_bundle : MemFS :=
  {| mem_cwd := "/work";
     mem_dirs := {[ "/work/dist/assets"%string :=
                      ["index-abc123.css"; "index-abc123.js.map"]%string ]};
     mem_files := {[ "/work/dist/assets/index-abc123.css"%string := lit "body{}";
                     "data.json"%string := lit "{}" ]} |}.

End Worlds.

(** ** What [FindingsTable] returns

    The rest of [src/components/FindingsTable.tsx]: the severity buttons,
    the tabs, the rows of the table and the details dialog.  Reading a
    property of [undefined] throws a [TypeError]; the component catches
    nothing, so a throw in one row is a throw of the whole render. *)

Module Rendering.
Import JS Ash Utils FindingsTable.

Inductive thrown := TypeError.

(** [severityConfig[key].icon].  The table is a plain object: a key it
    does not own is looked up in [Object.prototype], whose members have
    no [icon]; a key found nowhere gives [undefined], and reading [icon]
    of that throws. *)
Definition icon_of (key : string) : thrown + option string :=
  match lookup_config severityConfig key with
  | Some config => inr (Some (icon config))
  | None =>
      if includes Object_prototype_keys key then inr None else inl TypeError
  end.

(** A JSX child that is [undefined] renders nothing. *)
Definition child (x : option string) : string := default EmptyString x.

(** The component has its own copy of this function. *)
Definition getSeverityVariant (severity : SeverityLevel) : string :=
  if decide (severity = CRITICAL) then "error"
  else if decide (severity = HIGH) then "warning"
  else if decide (severity = MEDIUM) then "warning"
  else if decide (severity = LOW) then "success"
  else "default".

(** The badge of a row and of the dialog: variant and text. *)
Definition badge (severity : SeverityLevel) : thrown + (string * string) :=
  match icon_of severity with
  | inl e => inl e
  | inr icon => inr (getSeverityVariant severity, child icon +:+ " " +:+ severity)
  end.

Record Row := {
  row_badge : string * string;
  row_tool : string;
  row_message : string;
  row_location : string;
  row_details : Finding;
}.

Definition row (finding : Finding) : thrown + Row :=
  match badge (severity finding) with
  | inl e => inl e
  | inr b => inr {| row_badge := b;
                    row_tool := tool finding;
                    row_message := message finding;
                    row_location := location finding;
                    row_details := finding |}
  end.

(** [filteredFindings.map(...)]: the first row that throws ends the map. *)
Fixpoint rows (shown : list Finding) : thrown + list Row :=
  match shown with
  | [] => inr []
  | finding :: shown' =>
      match row finding with
      | inl e => inl e
      | inr r => match rows shown' with
                 | inl e => inl e
                 | inr rs => inr (r :: rs)
                 end
      end
  end.

(** [{x && (...)}] for a string [x]: the block when [x] is a non-empty
    string, nothing otherwise. *)
Definition block (x : option string) : option string :=
  match x with
  | Some text => if truthy text then Some text else None
  | None => None
  end.

(** [{n && (...)}] for a number [n]: the block when [n] is not zero; a
    zero is itself rendered, as the text 0. *)
Inductive number_block :=
| NumberBlock (n : nat)
| BareZero
| NoNumber.

Definition line_block (x : option nat) : number_block :=
  match x with
  | Some 0 => BareZero
  | Some n => NumberBlock n
  | None => NoNumber
  end.

Record Details := {
  details_badge : string * string;
  details_tool : string;
  details_message : string;
  details_location : string;
  details_lineNumber : number_block;
  details_description : option string;
  details_recommendation : option string;
  details_cve : option string;
}.

(** The content of the dialog, [{selectedFinding && (...)}]. *)
Definition details (selected : option Finding) : thrown + option Details :=
  match selected with
  | None => inr None
  | Some finding =>
      match badge (severity finding) with
      | inl e => inl e
      | inr b =>
          inr (Some {| details_badge := b;
                       details_tool := tool finding;
                       details_message := message finding;
                       details_location := location finding;
                       details_lineNumber := line_block (lineNumber finding);
                       details_description := block (description finding);
                       details_recommendation := block (recommendation finding);
                       details_cve := block (cve finding) |})
      end
  end.

Record View := {
  view_buttons : list (string * string * bool);
  view_tabs : list string;
  view_rows : list Row;
  view_no_match : bool;
  view_dialog_open : bool;
  view_details : option Details;
}.

(** The component for given findings in a given state. *)
Definition render (findings : list Finding) (st : State) : thrown + View :=
  let shown := filteredFindings findings (activeTab st) (severityFilter st) in
  let buttons :=
    (λ '(severity, config),
       (icon config, severity, includes (severityFilter st) severity))
    <$> severityConfig in
  match rows shown with
  | inl e => inl e
  | inr rs =>
      match details (selectedFinding st) with
      | inl e => inl e
      | inr d =>
          inr {| view_buttons := buttons;
                 view_tabs := "all"%string :: tools findings;
                 view_rows := rs;
                 view_no_match := bool_decide (length shown = 0);
                 view_dialog_open := bool_decide (is_Some (selectedFinding st));
                 view_details := d |}
      end
  end.

End Rendering.

(** ** More notions the statements use *)

Module Derived.
Import JS Ash Utils FindingsTable GenerateReport.

(** Clicking the severity buttons of [keys] one after the other. *)
Definition toggles (prev : list SeverityLevel) (keys : list SeverityLevel)
  : list SeverityLevel :=
  foldl toggle prev keys.

(** The number a card shows; a card that shows no number counts as 0. *)
Definition shown_number (v : value) : nat :=
  match v with
  | VNum n => n
  | VNotNum => 0
  end.

(** Does a replacement text hold one of the four dollar forms?  The scan
    goes as [GetSubstitution] does: a dollar and the unit it combines with
    are read together. *)
Fixpoint has_dollar_form (replacement : text) : bool :=
  match replacement with
  | [] => false
  | c :: rest =>
      if decide (c = "$"%char) then
        match rest with
        | [] => false
        | d :: rest' =>
            if decide (d = "$"%char) then true
            else if decide (d = "&"%char) then true
            else if decide (d = "`"%char) then true
            else if decide (d = "'"%char) then true
            else has_dollar_form rest
        end
      else has_dollar_form rest
  end.

(** What every step of the table keeps. *)
Definition well_formed (findings : list Finding) (st : State) : Prop :=
  NoDup (severityFilter st)
  ∧ Forall (.∈ known_severities) (severityFilter st)
  ∧ (activeTab st = "all"%string ∨ activeTab st ∈ tools findings)
  ∧ (∀ finding, selectedFinding st = Some finding →
       finding ∈ findings ∧ severity finding ∈ known_severities).

(** The table of [Spec.four_findings] after three clicks: MEDIUM switched
    off, the tab of git-secrets chosen, and the details of its HIGH
    finding opened. *)
Definition medium_off : State :=
  {| selectedFinding := None;
     activeTab := "all";
     severityFilter := [Ash.CRITICAL; Ash.HIGH; Ash.LOW] |}.

Definition on_git_secrets : State :=
  {| selectedFinding := None;
     activeTab := "git-secrets";
     severityFilter := [Ash.CRITICAL; Ash.HIGH; Ash.LOW] |}.

Definition details_open : State :=
  {| selectedFinding := Some (Spec.finding_of "git-secrets" Ash.HIGH);
     activeTab := "git-secrets";
     severityFilter := [Ash.CRITICAL; Ash.HIGH; Ash.LOW] |}.

Section Run.
Context {World : Type} `{!Node World}.

(** The style block that goes with a listing: none without a style
    sheet, the wrapped content of the first style sheet otherwise. *)
Definition style_for (w : World) (files : list string) (cssSection : text) : Prop :=
  match find (λ file, endsWith (lit ".css") (lit file)) files with
  | None => cssSection = []
  | Some cssFile =>
      ∃ cssContent,
        readFileSync w (join [join [cwd w; "dist"; "assets"]; cssFile]%string)
        = inr cssContent
        ∧ cssSection = style_block cssContent
  end.

(** What a run needs up to its write. *)
Definition inputs (w : World) (ashDataPath : string)
    (ashData cssSection jsContent : text) : Prop :=
  ∃ files jsFile,
    readdirSync w (join [cwd w; "dist"; "assets"]%string) = inr files
    ∧ find (λ file, endsWith (lit ".js") (lit file)) files = Some jsFile
    ∧ readFileSync w ashDataPath = inr ashData
    ∧ readFileSync w (join [join [cwd w; "dist"; "assets"]; jsFile]%string)
      = inr jsContent
    ∧ style_for w files cssSection.

(** How the process ends once the write is reached: with status 0 when
    the write succeeds, with status 1 and the message of the write when
    it throws; the world is the one the write leaves. *)
Definition after_write (result : option string * World) : Outcome :=
  match result with
  | (None, w') => {| exitCode := 0; stderr := None; world := w' |}
  | (Some message, w') => {| exitCode := 1; stderr := Some message; world := w' |}
  end.

End Run.

(** [process.argv[3] || 'ash-security-report.html'] *)
Definition output_path (argv : list string) : string :=
  match argv !! 3 with
  | Some given => if truthy given then given else "ash-security-report.html"%string
  | None => "ash-security-report.html"%string
  end.

End Derived.

(** ** What a row and the dialog show for a finding, given the entry
    of the severity table for its severity *)

Module Expected.
Import Ash Utils Rendering.

Definition row_with (config : SeverityConfig) (finding : Finding) : Row :=
  {| row_badge := (Rendering.getSeverityVariant (severity finding),
                   icon config +:+ " " +:+ severity finding);
     row_tool := tool finding;
     row_message := message finding;
     row_location := location finding;
     row_details := finding |}.

Definition details_with (config : SeverityConfig) (finding : Finding) : Details :=
  {| details_badge := (Rendering.getSeverityVariant (severity finding),
                       icon config +:+ " " +:+ severity finding);
     details_tool := tool finding;
     details_message := message finding;
     details_location := location finding;
     details_lineNumber := line_block (lineNumber finding);
     details_description := block (description finding);
     details_recommendation := block (recommendation finding);
     details_cve := block (cve finding) |}.

End Expected.

(** ** The severity table as an object on the heap

    [export const severityConfig = {...}] fixes the binding, not the
    object: nothing freezes it, so any code that holds it could assign to
    its properties.  Here the object lives on a heap, the components read
    it from there, and every operation gives back the heap it leaves. *)

Module Store.
Import JS Ash Utils SummaryCards FindingsTable Rendering.

Record Heap := {
  config_object : list (SeverityLevel * SeverityConfig);
}.

(** The heap once the module [utils] is loaded. *)
Definition initial_heap : Heap := {| config_object := severityConfig |}.

Definition op (A : Type) : Type := Heap → A * Heap.

Definition op_ret {A} (a : A) : op A := λ h, (a, h).
Definition op_bind {A B} (m : op A) (k : A → op B) : op B :=
  λ h, let '(a, h') := m h in k a h'.

#[export] Instance op_mret : MRet op := @op_ret.
#[export] Instance op_mbind : MBind op := λ A B k m, op_bind m k.

(** [Object.entries(severityConfig)] *)
Definition entries : op (list (SeverityLevel * SeverityConfig)) :=
  λ h, (config_object h, h).

(** [severityConfig[key]], for an own key. *)
Definition property (key : string) : op (option SeverityConfig) :=
  λ h, (lookup_config (config_object h) key, h).

(** An assignment keeps the place of a key the object has and puts a new
    key last. *)
Fixpoint assign_entry (key : string) (config : SeverityConfig)
    (table : list (SeverityLevel * SeverityConfig))
  : list (SeverityLevel * SeverityConfig) :=
  match table with
  | [] => [(key, config)]
  | (k, c) :: table' =>
      if decide (k = key) then (k, config) :: table'
      else (k, c) :: assign_entry key config table'
  end.

(** [severityConfig[key] = config]: the object allows it; no function of
    the program does it. *)
Definition assign (key : string) (config : SeverityConfig) : op () :=
  λ h, ((), {| config_object := assign_entry key config (config_object h) |}).

(** [SummaryCards], reading the table from the heap. *)
Definition SummaryCards_op (findings : list Finding) : op (list Card) :=
  table ← entries;
  let cs := counts findings in
  mret ((λ '(severity, config),
           let n := count cs severity in
           {| card_severity := severity;
              card_icon := icon config;
              card_variant := SummaryCards.getSeverityVariant severity;
              card_count := n;
              card_noun := match n with VNum 1 => "finding" | _ => "findings" end |})
        <$> table).

(** [severityConfig[key].icon] *)
Definition icon_op (key : string) : op (thrown + option string) :=
  config ← property key;
  mret (match config with
        | Some config => inr (Some (icon config))
        | None =>
            if includes Object_prototype_keys key then inr None else inl TypeError
        end).

Definition badge_op (severity : SeverityLevel) : op (thrown + (string * string)) :=
  icon ← icon_op severity;
  mret (match icon with
        | inl e => inl e
        | inr icon =>
            inr (Rendering.getSeverityVariant severity, child icon +:+ " " +:+ severity)
        end).

Definition row_op (finding : Finding) : op (thrown + Row) :=
  b ← badge_op (severity finding);
  mret (match b with
        | inl e => inl e
        | inr b => inr {| row_badge := b;
                          row_tool := tool finding;
                          row_message := message finding;
                          row_location := location finding;
                          row_details := finding |}
        end).

Fixpoint rows_op (shown : list Finding) : op (thrown + list Row) :=
  match shown with
  | [] => mret (inr [])
  | finding :: shown' =>
      r ← row_op finding;
      match r with
      | inl e => mret (inl e)
      | inr r =>
          rs ← rows_op shown';
          mret (match rs with
                | inl e => inl e
                | inr rs => inr (r :: rs)
                end)
      end
  end.

Definition details_op (selected : option Finding) : op (thrown + option Details) :=
  match selected with
  | None => mret (inr None)
  | Some finding =>
      b ← badge_op (severity finding);
      mret (match b with
            | inl e => inl e
            | inr b =>
                inr (Some {| details_badge := b;
                             details_tool := tool finding;
                             details_message := message finding;
                             details_location := location finding;
                             details_lineNumber := line_block (lineNumber finding);
                             details_description := block (description finding);
                             details_recommendation := block (recommendation finding);
                             details_cve := block (cve finding) |})
            end)
  end.

(** [FindingsTable], reading the table from the heap. *)
Definition render_op (findings : list Finding) (st : State) : op (thrown + View) :=
  let shown := filteredFindings findings (activeTab st) (severityFilter st) in
  table ← entries;
  let buttons :=
    (λ '(severity, config),
       (icon config, severity, includes (severityFilter st) severity))
    <$> table in
  rs ← rows_op shown;
  match rs with
  | inl e => mret (inl e)
  | inr rs =>
      d ← details_op (selectedFinding st);
      mret (match d with
            | inl e => inl e
            | inr d =>
                inr {| view_buttons := buttons;
                       view_tabs := "all"%string :: tools findings;
                       view_rows := rs;
                       view_no_match := bool_decide (length shown = 0);
                       view_dialog_open := bool_decide (is_Some (selectedFinding st));
                       view_details := d |}
            end)
  end.

(** The handlers of the table. *)
Inductive event :=
| ClickSeverity (severityKey : SeverityLevel)
| ChangeTab (value : string)
| ViewDetails (finding : Finding)
| CloseDialog.

Definition handle (e : event) (st : State) : op State :=
  mret (match e with
        | ClickSeverity severityKey =>
            {| selectedFinding := selectedFinding st;
               activeTab := activeTab st;
               severityFilter := toggle (severityFilter st) severityKey |}
        | ChangeTab value =>
            {| selectedFinding := selectedFinding st;
               activeTab := value;
               severityFilter := severityFilter st |}
        | ViewDetails finding =>
            {| selectedFinding := Some finding;
               activeTab := activeTab st;
               severityFilter := severityFilter st |}
        | CloseDialog =>
            {| selectedFinding := None;
               activeTab := activeTab st;
               severityFilter := severityFilter st |}
        end).

(** What the program does with the table in reach. *)
Inductive operation :=
| render_SummaryCards (findings : list Finding)
| render_FindingsTable (findings : list Finding) (st : State)
| handle_event (e : event) (st : State).

Definition run (o : operation) : op () :=
  match o with
  | render_SummaryCards findings => _ ← SummaryCards_op findings; mret ()
  | render_FindingsTable findings st => _ ← render_op findings st; mret ()
  | handle_event e st => _ ← handle e st; mret ()
  end.

Fixpoint run_all (os : list operation) : op () :=
  match os with
  | [] => mret ()
  | o :: os' => _ ← run o; run_all os'
  end.

End Store.

(** * Properties *)

(** ** Arrays and sets *)

Section ArrayFacts.
Import JS.

Lemma includes_elem_of l x : includes l x = true ↔ x ∈ l.
Proof.
  induction l as [|y l IH]; simpl.
  - split; [discriminate | by intros ?%elem_of_nil].
  - rewrite elem_of_cons. destruct (decide (y = x)) as [->|Hne].
    + split; auto.
    + rewrite IH. split; [auto | by intros [->|?]].
Qed.

Lemma includes_false l x : includes l x = false ↔ x ∉ l.
Proof.
  rewrite <- includes_elem_of. destruct (includes l x); split; congruence.
Qed.

Lemma Array_filter_filter {A} (p : A → bool) (l : list A) :
  Array_filter p l = filter (λ x, Is_true (p x)) l.
Proof.
  induction l as [|x l IH]; [done|]. simpl. rewrite filter_cons, IH.
  destruct (p x); by case_decide.
Qed.

Lemma elem_of_Array_filter {A} (p : A → bool) (l : list A) x :
  x ∈ Array_filter p l ↔ x ∈ l ∧ p x = true.
Proof.
  rewrite Array_filter_filter, list_elem_of_filter, Is_true_true. tauto.
Qed.

Lemma Array_indexOf_lookup l x p :
  Array_indexOf l x = Some p →
  l !! p = Some x ∧ ∀ q, q < p → l !! q ≠ Some x.
Proof.
  revert p. induction l as [|y l IH]; intros p; simpl; [done|].
  destruct (decide (y = x)) as [->|Hne].
  - intros [= <-]. split; [done | lia].
  - destruct (Array_indexOf l x) as [p'|]; simpl; [|done].
    intros [= <-]. destruct (IH p' eq_refl) as [Hp Hq]. split; [done|].
    intros [|q] Hlt; simpl; [congruence | apply Hq; lia].
Qed.

Lemma Array_indexOf_elem_of l x : x ∈ l → is_Some (Array_indexOf l x).
Proof.
  induction l as [|y l IH]; [by intros ?%elem_of_nil|].
  simpl. destruct (decide (y = x)); [by eauto|].
  intros [?|Hin]%elem_of_cons; [congruence|].
  destruct (IH Hin) as [p ->]. by eauto.
Qed.

Lemma Array_indexOf_app_l l k x :
  x ∈ l → Array_indexOf (l ++ k) x = Array_indexOf l x.
Proof.
  induction l as [|y l IH]; [by intros ?%elem_of_nil|].
  simpl. destruct (decide (y = x)); [done|].
  intros [?|Hin]%elem_of_cons; [congruence|]. by rewrite IH.
Qed.

Lemma Array_indexOf_snoc_new l x :
  x ∉ l → Array_indexOf (l ++ [x]) x = Some (length l).
Proof.
  induction l as [|y l IH]; simpl.
  - by rewrite decide_True.
  - intros [Hne Hnin]%not_elem_of_cons.
    rewrite decide_False by done. by rewrite IH.
Qed.

Lemma Array_indexOf_lt l x p : Array_indexOf l x = Some p → p < length l.
Proof.
  intros [Hp _]%Array_indexOf_lookup. by eapply lookup_lt_Some.
Qed.

Lemma Set_from_snoc l x : Set_from (l ++ [x]) = Set_add (Set_from l) x.
Proof. unfold Set_from. by rewrite foldl_snoc. Qed.

Lemma elem_of_Set_add s x y : y ∈ Set_add s x ↔ y ∈ s ∨ y = x.
Proof.
  unfold Set_add. destruct (includes s x) eqn:Hin.
  - apply includes_elem_of in Hin. split; [auto | by intros [?| ->]].
  - rewrite elem_of_app, list_elem_of_singleton. tauto.
Qed.

Lemma elem_of_Set_from l x : x ∈ Set_from l ↔ x ∈ l.
Proof.
  induction l as [|y l IH] using rev_ind; [done|].
  rewrite Set_from_snoc, elem_of_Set_add, IH, elem_of_app, list_elem_of_singleton.
  tauto.
Qed.

Lemma NoDup_Set_from l : NoDup (Set_from l).
Proof.
  induction l as [|y l IH] using rev_ind; [constructor|].
  rewrite Set_from_snoc. unfold Set_add.
  destruct (includes (Set_from l) y) eqn:Hin; [done|].
  apply includes_false in Hin. apply NoDup_app. split_and!; [done| |apply NoDup_singleton].
  intros x Hx ->%list_elem_of_singleton. done.
Qed.

(** Members stand in the order of their first occurrences. *)
Lemma Set_from_order l i j a b :
  Set_from l !! i = Some a → Set_from l !! j = Some b → i < j →
  ∃ p q, Array_indexOf l a = Some p ∧ Array_indexOf l b = Some q ∧ p < q.
Proof.
  revert i j a b. induction l as [|y l IH] using rev_ind; intros i j a b; [done|].
  rewrite Set_from_snoc. unfold Set_add.
  destruct (includes (Set_from l) y) eqn:Hin.
  - intros Ha Hb Hlt. destruct (IH _ _ _ _ Ha Hb Hlt) as (p & q & Hp & Hq & ?).
    exists p, q. rewrite !Array_indexOf_app_l; [done| |].
    + apply elem_of_Set_from. by eapply list_elem_of_lookup_2.
    + apply elem_of_Set_from. by eapply list_elem_of_lookup_2.
  - apply includes_false in Hin. rewrite elem_of_Set_from in Hin.
    intros Ha Hb Hlt.
    assert (i < length (Set_from l)) as Hi.
    { apply lookup_lt_Some in Hb. rewrite length_app in Hb. simpl in Hb. lia. }
    rewrite lookup_app_l in Ha by done.
    assert (a ∈ l) as Hal by (apply elem_of_Set_from; by eapply list_elem_of_lookup_2).
    destruct (Array_indexOf_elem_of _ _ Hal) as [p Hp].
    apply lookup_snoc_Some in Hb as [[Hj Hb]|[Hj <-]].
    + destruct (IH _ _ _ _ Ha Hb Hlt) as (p' & q & Hp' & Hq & ?).
      exists p', q. rewrite !Array_indexOf_app_l; [done| |done].
      apply elem_of_Set_from. by eapply list_elem_of_lookup_2.
    + exists p, (length l). rewrite Array_indexOf_app_l by done.
      rewrite Array_indexOf_snoc_new by done. split_and!; [done..|].
      by eapply Array_indexOf_lt.
Qed.

End ArrayFacts.

(** ** The severity table *)

Section UtilsFacts.
Import Ash Utils.

Lemma known_severities_eq : known_severities = [CRITICAL; HIGH; MEDIUM; LOW].
Proof. reflexivity. Qed.

Lemma known_not_inherited k :
  k ∈ known_severities → JS.includes JS.Object_prototype_keys k = false.
Proof.
  rewrite known_severities_eq. intros Hk.
  repeat (apply elem_of_cons in Hk as [->|Hk]; [by vm_compute|]).
  by apply elem_of_nil in Hk.
Qed.

End UtilsFacts.

(** ** The tally *)

Section SummaryCardsFacts.
Import JS Ash Utils SummaryCards Spec.

Lemma occurrences_snoc k l f :
  occurrences k (l ++ [f]) =
  occurrences k l + (if decide (severity f = k) then 1 else 0).
Proof.
  unfold occurrences. rewrite filter_app, length_app, filter_cons, filter_nil.
  by case_decide.
Qed.

Lemma counts_snoc l f : counts (l ++ [f]) = tally (counts l) f.
Proof. unfold counts. by rewrite foldl_snoc. Qed.

(** A key that [Object.prototype] does not have counts its findings. *)
Lemma count_counts k findings :
  includes Object_prototype_keys k = false →
  count (counts findings) k = VNum (occurrences k findings).
Proof.
  intros Hk. unfold count.
  induction findings as [|f l IH] using rev_ind.
  - unfold counts, get. cbn [foldl]. by rewrite lookup_empty, Hk.
  - rewrite counts_snoc, occurrences_snoc. unfold tally, set.
    destruct (decide (severity f = "__proto__"%string)) as [Hp|Hp].
    { rewrite decide_False; [by rewrite IH, Nat.add_0_r|].
      intros <-. rewrite Hp in Hk. by vm_compute in Hk. }
    destruct (decide (severity f = k)) as [->|Hne].
    + unfold get at 1. rewrite lookup_insert_eq, IH. simpl.
      by rewrite Nat.add_1_r.
    + unfold get at 1. rewrite lookup_insert_ne by done.
      fold (get (counts l) k). by rewrite IH, Nat.add_0_r.
Qed.

Lemma count_known k findings :
  k ∈ known_severities →
  count (counts findings) k = VNum (occurrences k findings).
Proof. intros Hk. by apply count_counts, known_not_inherited. Qed.

Lemma card_counts findings :
  card_count <$> SummaryCards findings =
  [ VNum (occurrences CRITICAL findings); VNum (occurrences HIGH findings);
    VNum (occurrences MEDIUM findings); VNum (occurrences LOW findings) ].
Proof.
  unfold SummaryCards, severityConfig. simpl.
  rewrite !count_known; [done|..]; rewrite known_severities_eq; set_solver.
Qed.

Lemma recognized_length findings :
  length (recognized findings) =
  occurrences CRITICAL findings + occurrences HIGH findings
  + occurrences MEDIUM findings + occurrences LOW findings.
Proof.
  unfold recognized, occurrences.
  induction findings as [|f l IH]; [done|].
  rewrite !filter_cons.
  destruct (decide (severity f ∈ known_severities)) as [Hin|Hnin].
  - rewrite known_severities_eq in Hin.
    repeat (apply elem_of_cons in Hin as [Heq|Hin];
      [rewrite Heq; repeat (case_decide; try done); simpl; lia |]).
    by apply elem_of_nil in Hin.
  - rewrite known_severities_eq in Hnin.
    repeat (apply not_elem_of_cons in Hnin as [? Hnin]).
    by rewrite !decide_False by done.
Qed.

Lemma occurrences_recognized k findings :
  k ∈ known_severities →
  occurrences k (recognized findings) = occurrences k findings.
Proof.
  intros Hk. unfold occurrences, recognized. rewrite list_filter_filter.
  f_equal. apply list_filter_iff. intros f.
  split; [tauto | intros Heq; split; [done | by rewrite Heq]].
Qed.

Lemma occurrences_zero k findings :
  k ∉ severity <$> findings → occurrences k findings = 0.
Proof.
  unfold occurrences. induction findings as [|f l IH]; [done|].
  rewrite fmap_cons, not_elem_of_cons. intros [Hne Hnin].
  rewrite filter_cons_False by congruence. by apply IH.
Qed.

(** C4: the cards are the four severities CRITICAL, HIGH, MEDIUM, LOW,
    none omitted; each shows a number, the count of the findings whose
    severity is exactly its key (0 when there is none); the four counts
    add up to the number of findings with a recognized severity, which
    is at most the length of the list. *)
Theorem severity_counts findings :
  card_severity <$> SummaryCards findings = [CRITICAL; HIGH; MEDIUM; LOW]
  ∧ card_count <$> SummaryCards findings =
      [ VNum (occurrences CRITICAL findings); VNum (occurrences HIGH findings);
        VNum (occurrences MEDIUM findings); VNum (occurrences LOW findings) ]
  ∧ (∀ k, k ∈ known_severities → k ∉ severity <$> findings →
          count (counts findings) k = VNum 0)
  ∧ occurrences CRITICAL findings + occurrences HIGH findings
    + occurrences MEDIUM findings + occurrences LOW findings
    = length (recognized findings)
  ∧ length (recognized findings) ≤ length findings.
Proof.
  split_and!.
  - reflexivity.
  - apply card_counts.
  - intros k Hk Hnone. by rewrite count_known, occurrences_zero.
  - by rewrite recognized_length.
  - apply length_filter.
Qed.

End SummaryCardsFacts.

(** ** The filtered view and the tool tabs *)

Section FindingsTableFacts.
Import JS Ash Utils SummaryCards FindingsTable Spec.

Lemma matches_spec activeTab severityFilter f :
  matches activeTab severityFilter f = true ↔
  severity f ∈ severityFilter ∧ (activeTab = "all"%string ∨ tool f = activeTab).
Proof.
  unfold matches. rewrite andb_true_iff, orb_true_iff, includes_elem_of.
  rewrite !bool_decide_eq_true. tauto.
Qed.

Lemma filteredFindings_filter findings activeTab severityFilter :
  filteredFindings findings activeTab severityFilter =
  filter (λ f, severity f ∈ severityFilter
               ∧ (activeTab = "all"%string ∨ tool f = activeTab)) findings.
Proof.
  unfold filteredFindings. rewrite Array_filter_filter.
  apply list_filter_iff. intros f. by rewrite Is_true_true, matches_spec.
Qed.

(** C3: the filtered view is a sublist of the findings in their order; it
    is the stable filter of the conjunction of the two tests; a finding
    is in it exactly when it is in the list, its severity is selected, and
    the active tab is the sentinel [all] or equal to its tool. *)
Theorem filteredFindings_spec findings activeTab severityFilter :
  filteredFindings findings activeTab severityFilter `sublist_of` findings
  ∧ filteredFindings findings activeTab severityFilter =
      filter (λ f, severity f ∈ severityFilter
                   ∧ (activeTab = "all"%string ∨ tool f = activeTab)) findings
  ∧ ∀ f, f ∈ filteredFindings findings activeTab severityFilter ↔
         f ∈ findings ∧ severity f ∈ severityFilter
         ∧ (activeTab = "all"%string ∨ tool f = activeTab).
Proof.
  split_and!.
  - rewrite filteredFindings_filter. apply sublist_filter.
  - apply filteredFindings_filter.
  - intros f. unfold filteredFindings.
    rewrite elem_of_Array_filter, matches_spec. tauto.
Qed.

(** C5: the tool tabs hold no tool twice, hold exactly the tools of the
    findings, and stand in the order in which the tools first occur in
    the findings. *)
Theorem tools_distinct_in_first_occurrence_order findings :
  NoDup (tools findings)
  ∧ (∀ t, t ∈ tools findings ↔ t ∈ tool <$> findings)
  ∧ ∀ i j a b,
      tools findings !! i = Some a → tools findings !! j = Some b → i < j →
      ∃ p q, Array_indexOf (tool <$> findings) a = Some p
             ∧ Array_indexOf (tool <$> findings) b = Some q ∧ p < q.
Proof.
  unfold tools. split_and!.
  - apply NoDup_Set_from.
  - intros t. apply elem_of_Set_from.
  - apply Set_from_order.
Qed.

Lemma filteredFindings_no_selection findings activeTab :
  filteredFindings findings activeTab [] = [].
Proof.
  unfold filteredFindings. induction findings as [|f l IH]; [done|].
  simpl. unfold matches at 1. simpl. by rewrite andb_false_r.
Qed.

(** C8: with no findings the four counts are 0, there is no tool tab and
    every filter gives the empty list; with no severity selected the
    filter gives the empty list whatever the findings are. *)
Theorem boundary_cases :
  card_count <$> SummaryCards [] = [VNum 0; VNum 0; VNum 0; VNum 0]
  ∧ card_severity <$> SummaryCards [] = [CRITICAL; HIGH; MEDIUM; LOW]
  ∧ tools [] = []
  ∧ (∀ activeTab severityFilter, filteredFindings [] activeTab severityFilter = [])
  ∧ (∀ findings activeTab, filteredFindings findings activeTab [] = []).
Proof.
  split_and!; try done. apply filteredFindings_no_selection.
Qed.

(** The selection only ever holds keys of the severity table. *)
Lemma toggle_known prev severityKey :
  severityKey ∈ known_severities →
  Forall (.∈ known_severities) prev →
  Forall (.∈ known_severities) (toggle prev severityKey).
Proof.
  intros Hk Hprev. unfold toggle. destruct (includes prev severityKey).
  - rewrite Forall_forall in *. intros s [Hs _]%elem_of_Array_filter. by apply Hprev.
  - apply Forall_app. split; [done|]. by apply Forall_singleton.
Qed.

Lemma reachable_known findings st :
  reachable findings st → Forall (.∈ known_severities) (severityFilter st).
Proof.
  intros Hr.
  apply (rtc_ind_r (R := step findings)
           (λ st, Forall (.∈ known_severities) (severityFilter st)) initial);
    [ | | exact Hr].
  - by apply (bool_decide_unpack _).
  - intros st1 st2 _ Hstep IH. destruct Hstep; simpl; try done.
    by apply toggle_known.
Qed.

Lemma unknown_never_shown findings st f :
  reachable findings st → severity f ∉ known_severities →
  f ∉ filteredFindings findings (activeTab st) (severityFilter st).
Proof.
  intros Hr Hunknown. unfold filteredFindings.
  rewrite elem_of_Array_filter, matches_spec. intros (_ & Hsel & _).
  apply reachable_known in Hr. rewrite Forall_forall in Hr. by apply Hunknown, Hr.
Qed.

Lemma SummaryCards_recognized findings :
  SummaryCards findings = SummaryCards (recognized findings).
Proof.
  unfold SummaryCards, severityConfig. simpl.
  rewrite !count_known by (rewrite known_severities_eq; set_solver).
  rewrite !occurrences_recognized by (rewrite known_severities_eq; set_solver).
  done.
Qed.

(** C7, as stated, fails: a finding whose severity is INFO is in no
    filtered view the component can show. *)
Lemma unknown_severity_in_no_filtered_view :
  info_finding ∈ [info_finding]
  ∧ (severity info_finding ∉ known_severities)
  ∧ filteredFindings [info_finding] (activeTab initial) (severityFilter initial) = []
  ∧ (∀ st, reachable [info_finding] st →
           filteredFindings [info_finding] (activeTab st) (severityFilter st) = []).
Proof.
  assert (severity info_finding ∉ known_severities) as Hunknown.
  { by apply (bool_decide_unpack _). }
  split_and!; [by apply list_elem_of_singleton | done | done |].
  intros st Hr. unfold filteredFindings. simpl.
  destruct (matches _ _ _) eqn:Hm; [|done].
  apply matches_spec in Hm as [Hsel _]. apply reachable_known in Hr.
  rewrite Forall_forall in Hr. destruct Hunknown. by apply Hr.
Qed.

(** C7, amended: a finding whose severity is not one of the four is in no
    bucket: the cards are those of the findings with a recognized
    severity, and each of the four counts is a number, so the tally does
    not fail.  The finding stays in the list and its tool keeps its tab,
    but no state the component can reach shows it in the filtered view. *)
Theorem unknown_severity findings f :
  f ∈ findings → severity f ∉ known_severities →
  SummaryCards findings = SummaryCards (recognized findings)
  ∧ (f ∉ recognized findings)
  ∧ (∀ k, k ∈ known_severities →
          count (counts findings) k = VNum (occurrences k (recognized findings)))
  ∧ tool f ∈ tools findings
  ∧ (∀ st, reachable findings st →
           f ∉ filteredFindings findings (activeTab st) (severityFilter st)).
Proof.
  intros Hf Hunknown. split_and!.
  - apply SummaryCards_recognized.
  - unfold recognized. rewrite list_elem_of_filter. tauto.
  - intros k Hk. by rewrite count_known, occurrences_recognized.
  - unfold tools. apply elem_of_Set_from. by apply list_elem_of_fmap_2.
  - intros st Hr. by apply unknown_never_shown.
Qed.

Lemma unknown_severity_witness :
  SummaryCards [info_finding] = SummaryCards (recognized [info_finding])
  ∧ (info_finding ∉ recognized [info_finding])
  ∧ (∀ k, k ∈ known_severities →
          count (counts [info_finding]) k
          = VNum (occurrences k (recognized [info_finding])))
  ∧ tool info_finding ∈ tools [info_finding]
  ∧ (∀ st, reachable [info_finding] st →
           info_finding ∉ filteredFindings [info_finding] (activeTab st) (severityFilter st)).
Proof.
  apply (unknown_severity [info_finding] info_finding).
  - apply list_elem_of_singleton. reflexivity.
  - apply (bool_decide_unpack _). vm_compute. exact I.
Defined.

End FindingsTableFacts.

(** ** Searching and splicing texts *)

Section TextFacts.
Import JS.
Implicit Types s search pre post : text.

Lemma startsWith_app search rest : startsWith search (search ++ rest) = true.
Proof.
  induction search as [|c search IH]; [done|].
  simpl. by rewrite bool_decide_true, IH.
Qed.

Lemma startsWith_prefix search s :
  startsWith search s = true ↔ ∃ rest, s = search ++ rest.
Proof.
  split; [|intros [rest ->]; apply startsWith_app].
  revert s. induction search as [|c search IH]; intros [|d s]; simpl; try done.
  - by exists [].
  - by exists (d :: s).
  - intros [<-%bool_decide_eq_true [rest ->]%IH]%andb_true_iff. by exists rest.
Qed.

(** Only the first [length search] units of [s] matter. *)
Lemma startsWith_long search s rest :
  length search ≤ length s →
  startsWith search (s ++ rest) = startsWith search s.
Proof.
  revert s. induction search as [|c search IH]; intros [|d s]; simpl; try done; [lia|].
  intros Hlen. by rewrite IH by lia.
Qed.

(** An occurrence cannot run over a unit that the pattern does not have. *)
Lemma startsWith_separator search s c rest :
  c ∉ search →
  startsWith search (s ++ c :: rest) = true → startsWith search s = true.
Proof.
  revert s. induction search as [|d search IH]; intros [|e s]; simpl; try done.
  - intros [Hne _]%not_elem_of_cons [Heq%bool_decide_eq_true _]%andb_true_iff.
    congruence.
  - intros [_ Hnin]%not_elem_of_cons [-> Hrest]%andb_true_iff.
    simpl. by apply IH.
Qed.

Lemma indexOf_unfold s search :
  indexOf s search =
  if startsWith search s then Some 0
  else match s with
       | [] => None
       | _ :: s' => S <$> indexOf s' search
       end.
Proof. by destruct s. Qed.

Lemma indexOf_here search rest : indexOf (search ++ rest) search = Some 0.
Proof. by rewrite indexOf_unfold, startsWith_app. Qed.

(** What a found position means. *)
Lemma indexOf_Some s search pos :
  indexOf s search = Some pos →
  s = take pos s ++ search ++ drop (pos + length search) s
  ∧ length (take pos s) = pos
  ∧ pos + length search ≤ length s
  ∧ ∀ earlier, earlier < pos → startsWith search (drop earlier s) = false.
Proof.
  revert pos. induction s as [|c s IH]; intros pos.
  - simpl. destruct (startsWith search []) eqn:Hs; [|done].
    intros [= <-]. apply startsWith_prefix in Hs as [rest Hrest].
    symmetry in Hrest. apply app_eq_nil in Hrest as [-> ->].
    split_and!; [done..|lia].
  - cbn [indexOf]. destruct (startsWith search (c :: s)) eqn:Hs.
    + intros [= <-]. apply startsWith_prefix in Hs as [rest Hrest].
      rewrite Hrest. cbn [take Nat.add].
      rewrite drop_app_length, length_app. split_and!; [done|done|lia|lia].
    + destruct (indexOf s search) as [pos'|] eqn:Hi; [|done].
      intros [= <-]. destruct (IH pos' eq_refl) as (Heq & Hlen & Hle & Hfirst).
      split_and!.
      * simpl. by rewrite <- Heq.
      * simpl. by rewrite Hlen.
      * simpl. lia.
      * intros [|earlier] Hlt; [done|]. simpl. apply Hfirst. lia.
Qed.

Lemma indexOf_None s search earlier :
  indexOf s search = None → startsWith search (drop earlier s) = false.
Proof.
  revert earlier. induction s as [|c s IH]; intros earlier.
  - simpl. rewrite drop_nil. by destruct (startsWith search []).
  - cbn [indexOf]. destruct (startsWith search (c :: s)) eqn:Hs; [done|].
    destruct (indexOf s search) eqn:Hi; [done|]. intros _.
    destruct earlier; [done|]. simpl. by apply IH.
Qed.

(** A stretch without the first unit of the pattern is skipped. *)
Lemma indexOf_skip c search' skipped rest :
  Forall (.≠ c) skipped →
  indexOf (skipped ++ rest) (c :: search') =
  (λ pos, length skipped + pos) <$> indexOf rest (c :: search').
Proof.
  induction 1 as [|d skipped Hd _ IH].
  - simpl "++". by destruct (indexOf rest _).
  - simpl "++". cbn [indexOf startsWith].
    rewrite bool_decide_false by done. simpl andb. cbv iota.
    rewrite IH. by destruct (indexOf rest _).
Qed.

(** The first occurrence in a text is the first occurrence in any
    extension of it. *)
Lemma indexOf_app_l s search rest pos :
  indexOf s search = Some pos → indexOf (s ++ rest) search = Some pos.
Proof.
  revert pos. induction s as [|c s IH]; intros pos.
  - simpl. destruct (startsWith search []) eqn:Hs; [|done]. intros [= <-].
    apply startsWith_prefix in Hs as [r Hr].
    symmetry in Hr. apply app_eq_nil in Hr as [-> _]. by destruct rest.
  - cbn [indexOf]. destruct (startsWith search (c :: s)) eqn:Hs.
    + intros [= <-]. apply startsWith_prefix in Hs as [r Hr].
      rewrite Hr, <- (assoc_L (++)). apply indexOf_here.
    + destruct (indexOf s search) as [pos'|] eqn:Hi; [|done]. intros [= <-].
      pose proof (indexOf_Some _ _ _ Hi) as (_ & _ & Hle & _).
      rewrite (indexOf_unfold ((c :: s) ++ rest)).
      rewrite startsWith_long by (simpl; lia).
      rewrite Hs. simpl. by rewrite (IH pos').
Qed.

(** A text without an occurrence, followed by a unit the pattern does
    not have, is skipped. *)
Lemma indexOf_separator s search c rest :
  indexOf s search = None → c ∉ search →
  indexOf (s ++ c :: rest) search =
  (λ pos, length s + pos) <$> indexOf (c :: rest) search.
Proof.
  intros Hnone Hc. induction s as [|d s IH].
  - simpl "++". by destruct (indexOf (c :: rest) search).
  - rewrite indexOf_unfold in Hnone.
    destruct (startsWith search (d :: s)) eqn:Hs; [done|].
    destruct (indexOf s search) eqn:Hi; [done|].
    rewrite (indexOf_unfold ((d :: s) ++ c :: rest)).
    destruct (startsWith search ((d :: s) ++ c :: rest)) eqn:Hs'.
    { apply startsWith_separator in Hs'; [congruence|done]. }
    cbn [app]. rewrite IH by done. by destruct (indexOf (c :: rest) search).
Qed.

Lemma indexOf_separated s search c rest :
  indexOf s search = None → head rest = Some c → c ∉ search →
  indexOf (s ++ rest) search = (λ pos, length s + pos) <$> indexOf rest search.
Proof.
  destruct rest as [|d rest]; [done|]. intros Hnone [= ->]. by apply indexOf_separator.
Qed.

(** A text with an occurrence has a first one. *)
Lemma indexOf_occurs pre search post :
  ∃ pos, indexOf (pre ++ search ++ post) search = Some pos ∧ pos ≤ length pre.
Proof.
  induction pre as [|c pre (pos & IH & Hle)].
  - exists 0. split; [exact (indexOf_here search post) | done].
  - rewrite (indexOf_unfold ((c :: pre) ++ search ++ post)).
    destruct (startsWith search _).
    + exists 0. split; [done | lia].
    + exists (S pos). cbn [app]. rewrite IH. split; [done | simpl; lia].
Qed.

Lemma replace_found s search replacement pos :
  indexOf s search = Some pos →
  replace s search replacement =
  take pos s
  ++ GetSubstitution search (take pos s) (drop (pos + length search) s) replacement
  ++ drop (pos + length search) s.
Proof. unfold replace. by intros ->. Qed.

Lemma replace_at pre search post replacement :
  indexOf (pre ++ search ++ post) search = Some (length pre) →
  replace (pre ++ search ++ post) search replacement =
  pre ++ GetSubstitution search pre post replacement ++ post.
Proof.
  intros Hpos. rewrite (replace_found _ _ _ _ Hpos).
  rewrite take_app_length. rewrite (assoc_L (++) pre search post).
  rewrite <- length_app, drop_app_length. done.
Qed.

Lemma GetSubstitution_cons matched preceding following c rest :
  c ≠ "$"%char →
  GetSubstitution matched preceding following (c :: rest) =
  c :: GetSubstitution matched preceding following rest.
Proof. intros Hc. simpl. by rewrite decide_False. Qed.

(** A text without a dollar is inserted as it is. *)
Lemma GetSubstitution_plain_app matched preceding following plain rest :
  Forall (.≠ "$"%char) plain →
  GetSubstitution matched preceding following (plain ++ rest) =
  plain ++ GetSubstitution matched preceding following rest.
Proof.
  induction 1 as [|c plain Hc _ IH]; [done|].
  cbn [app]. rewrite GetSubstitution_cons by done. by rewrite IH.
Qed.

Lemma GetSubstitution_plain matched preceding following plain :
  Forall (.≠ "$"%char) plain →
  GetSubstitution matched preceding following plain = plain.
Proof.
  intros Hplain. rewrite <- (app_nil_r plain) at 1.
  rewrite GetSubstitution_plain_app by done. simpl. apply app_nil_r.
Qed.

Lemma GetSubstitution_dollar matched preceding following d rest :
  GetSubstitution matched preceding following ("$"%char :: d :: rest) =
  if decide (d = "$"%char) then
    "$"%char :: GetSubstitution matched preceding following rest
  else if decide (d = "&"%char) then
    matched ++ GetSubstitution matched preceding following rest
  else if decide (d = "`"%char) then
    preceding ++ GetSubstitution matched preceding following rest
  else if decide (d = "'"%char) then
    following ++ GetSubstitution matched preceding following rest
  else "$"%char :: GetSubstitution matched preceding following (d :: rest).
Proof. reflexivity. Qed.

(** An occurrence of a word without a dollar, whose first unit is not one
    that a dollar combines with, survives the substitution. *)
Lemma GetSubstitution_keeps matched preceding following c word before after :
  c ∉ ["$"; "&"; "`"; "'"]%char → Forall (.≠ "$"%char) word →
  ∃ before' after',
    GetSubstitution matched preceding following (before ++ (c :: word) ++ after) =
    before' ++ (c :: word) ++ after'.
Proof.
  intros Hc Hword.
  assert (c ≠ "$"%char) as Hc1 by (intros ->; apply Hc; set_solver).
  assert (Forall (.≠ "$"%char) (c :: word)) as Hplain by by constructor.
  assert (GetSubstitution matched preceding following ((c :: word) ++ after)
          = (c :: word) ++ GetSubstitution matched preceding following after) as Hhere
    by by apply GetSubstitution_plain_app.
  assert (∃ rest, (c :: word) ++ after = c :: rest) as Hfirst by by eexists.
  set (tail := (c :: word) ++ after) in *. clearbody tail.
  remember (length before) as n eqn:Hn. revert before Hn.
  induction n as [n IH] using lt_wf_ind. intros before Hn.
  destruct before as [|d before].
  { exists [], (GetSubstitution matched preceding following after).
    by rewrite !app_nil_l. }
  destruct (decide (d = "$"%char)) as [->|Hd].
  2:{ destruct (IH (length before)) with (before := before) as (b' & a' & Heq);
        [simpl in Hn; lia | done |].
      exists (d :: b'), a'. rewrite <- !app_comm_cons.
      rewrite GetSubstitution_cons by done. by rewrite Heq. }
  destruct before as [|e before].
  { exists ["$"%char], (GetSubstitution matched preceding following after).
    destruct Hfirst as [rest Htail].
    cbn [app]. rewrite Htail, GetSubstitution_dollar.
    rewrite !decide_False by (intros ->; apply Hc; set_solver).
    by rewrite <- Htail, Hhere. }
  destruct (IH (length before)) with (before := before) as (b2 & a2 & Heq2);
    [simpl in Hn; lia | done |].
  destruct (IH (length (e :: before))) with (before := e :: before) as (b1 & a1 & Heq1);
    [simpl in Hn; simpl; lia | done |].
  rewrite <- !app_comm_cons, GetSubstitution_dollar.
  rewrite app_comm_cons, Heq1, Heq2.
  repeat case_decide.
  - by exists ("$"%char :: b2), a2.
  - exists (matched ++ b2), a2. by rewrite <- (assoc_L (++)).
  - exists (preceding ++ b2), a2. by rewrite <- (assoc_L (++)).
  - exists (following ++ b2), a2. by rewrite <- (assoc_L (++)).
  - by exists ("$"%char :: b1), a1.
Qed.

End TextFacts.

(** ** The template and its placeholders *)

Section TemplateFacts.
Import JS GenerateReport Regions.

Lemma template_regions :
  template =
  before_css ++ CSS_SECTION ++ css_to_data ++ ASH_DATA ++ data_to_js
             ++ JS_CONTENT ++ after_js.
Proof. by vm_compute. Qed.

(** Outside its placeholders the template has no underscore. *)
Lemma regions_no_underscore :
  Forall (.≠ "_"%char) before_css ∧ Forall (.≠ "_"%char) css_to_data
  ∧ Forall (.≠ "_"%char) data_to_js ∧ Forall (.≠ "_"%char) after_js.
Proof. split_and!; apply (bool_decide_unpack _); by vm_compute. Qed.

Lemma indexOf_skip_underscore search skipped rest :
  head search = Some "_"%char → Forall (.≠ "_"%char) skipped →
  indexOf (skipped ++ rest) search =
  (λ pos, length skipped + pos) <$> indexOf rest search.
Proof. destruct search as [|c tail]; [done|]. intros [= ->]. apply indexOf_skip. Qed.

Lemma replace_split s search replacement pos pre post :
  indexOf s search = Some pos → s = pre ++ search ++ post → length pre = pos →
  replace s search replacement =
  pre ++ GetSubstitution search pre post replacement ++ post.
Proof. intros Hpos -> <-. by apply replace_at. Qed.

(** The first replacement: the data goes between the two script tags. *)
Lemma replace_data ashData :
  replace template ASH_DATA ashData =
  before_css ++ CSS_SECTION ++ css_to_data ++ data_region ashData
             ++ data_to_js ++ JS_CONTENT ++ after_js.
Proof.
  rewrite (replace_split template ASH_DATA ashData 276
             (before_css ++ CSS_SECTION ++ css_to_data)
             (data_to_js ++ JS_CONTENT ++ after_js)); [|by vm_compute..].
  by rewrite <- !(assoc_L (++)).
Qed.

(** The second replacement: whatever follows the template's own
    [__CSS_SECTION__], that one is the first. *)
Lemma replace_css rest cssSection :
  replace (before_css ++ CSS_SECTION ++ rest) CSS_SECTION cssSection =
  before_css ++ GetSubstitution CSS_SECTION before_css rest cssSection ++ rest.
Proof.
  apply replace_at.
  rewrite indexOf_skip_underscore; [|done|apply regions_no_underscore].
  rewrite indexOf_here. cbn [fmap option_fmap option_map]. by rewrite Nat.add_0_r.
Qed.

Lemma replace_data_css ashData cssSection :
  replace (replace template ASH_DATA ashData) CSS_SECTION cssSection =
  before_css ++ css_region ashData cssSection ++ css_to_data
             ++ data_region ashData ++ data_to_js ++ JS_CONTENT ++ after_js.
Proof. by rewrite replace_data, replace_css. Qed.

Lemma occurs_in_app search pre post : occurs_in search (pre ++ search ++ post).
Proof.
  unfold occurs_in. destruct (indexOf_occurs pre search post) as (pos & -> & _).
  by eexists.
Qed.

Lemma occurs_in_split search s :
  occurs_in search s → ∃ pre post, s = pre ++ search ++ post.
Proof. intros [pos (Heq & _)%indexOf_Some]. eauto. Qed.

(** A placeholder in a text is still there once the text is inserted. *)
Lemma placeholder_survives matched preceding following search s :
  search ∈ [ASH_DATA; CSS_SECTION; JS_CONTENT] →
  occurs_in search s →
  occurs_in search (GetSubstitution matched preceding following s).
Proof.
  intros Hsearch (pre & post & ->)%occurs_in_split.
  assert (∃ tail, search = "_"%char :: tail ∧ Forall (.≠ "$"%char) tail)
    as (tail & -> & Htail).
  { repeat (apply elem_of_cons in Hsearch as [->|Hsearch];
      [eexists; split; [reflexivity | apply (bool_decide_unpack _); by vm_compute]|]).
    by apply elem_of_nil in Hsearch. }
  destruct (GetSubstitution_keeps matched preceding following "_"%char tail pre post)
    as (pre' & post' & ->); [|done|apply occurs_in_app].
  by apply (bool_decide_unpack _).
Qed.

(** Where the third replacement lands. *)
Lemma indexOf_js_in_data ashData cssSection pos :
  indexOf (css_region ashData cssSection) JS_CONTENT = None →
  indexOf (data_region ashData) JS_CONTENT = Some pos →
  indexOf (before_css ++ css_region ashData cssSection ++ css_to_data
             ++ data_region ashData ++ data_to_js ++ JS_CONTENT ++ after_js)
          JS_CONTENT
  = Some (length before_css
          + (length (css_region ashData cssSection)
             + (length css_to_data + pos))).
Proof.
  intros Hcss Hdata.
  rewrite indexOf_skip_underscore; [|done|apply regions_no_underscore].
  rewrite (indexOf_separated _ _ "010"%char);
    [|done|done|by apply (bool_decide_unpack _)].
  rewrite indexOf_skip_underscore; [|done|apply regions_no_underscore].
  by rewrite (indexOf_app_l _ _ _ _ Hdata).
Qed.

Lemma indexOf_js_in_slot ashData cssSection :
  indexOf (css_region ashData cssSection) JS_CONTENT = None →
  indexOf (data_region ashData) JS_CONTENT = None →
  indexOf (before_css ++ css_region ashData cssSection ++ css_to_data
             ++ data_region ashData ++ data_to_js ++ JS_CONTENT ++ after_js)
          JS_CONTENT
  = Some (length before_css
          + (length (css_region ashData cssSection)
             + (length css_to_data
                + (length (data_region ashData) + (length data_to_js + 0))))).
Proof.
  intros Hcss Hdata.
  rewrite indexOf_skip_underscore; [|done|apply regions_no_underscore].
  rewrite (indexOf_separated _ _ "010"%char);
    [|done|done|by apply (bool_decide_unpack _)].
  rewrite indexOf_skip_underscore; [|done|apply regions_no_underscore].
  rewrite (indexOf_separated _ _ "<"%char);
    [|done|done|by apply (bool_decide_unpack _)].
  rewrite indexOf_skip_underscore; [|done|apply regions_no_underscore].
  by rewrite indexOf_here.
Qed.

End TemplateFacts.

Section HtmlFacts.
Import JS GenerateReport Regions.

(** With no placeholder text in the inserted data and style, each of the
    three contents is in its own slot. *)
Lemma html_regular ashData cssSection jsContent :
  ¬ occurs_in JS_CONTENT (css_region ashData cssSection) →
  ¬ occurs_in JS_CONTENT (data_region ashData) →
  let pre := before_css ++ css_region ashData cssSection ++ css_to_data
                        ++ data_region ashData ++ data_to_js in
  html ashData cssSection jsContent =
  pre ++ GetSubstitution JS_CONTENT pre after_js jsContent ++ after_js.
Proof.
  intros Hcss Hdata pre. apply eq_None_not_Some in Hcss, Hdata.
  unfold html. rewrite replace_data_css.
  rewrite (replace_split _ JS_CONTENT jsContent _ pre after_js
             (indexOf_js_in_slot _ _ Hcss Hdata)); [done|..].
  - unfold pre. by rewrite <- !(assoc_L (++)).
  - unfold pre. rewrite !length_app. lia.
Qed.

(** With the placeholder text of the script in the data, and not in the
    inserted style, the script goes into the data. *)
Lemma html_js_in_data ashData cssSection jsContent pos :
  ¬ occurs_in JS_CONTENT (css_region ashData cssSection) →
  indexOf (data_region ashData) JS_CONTENT = Some pos →
  let pre := before_css ++ css_region ashData cssSection ++ css_to_data
                        ++ take pos (data_region ashData) in
  let post := drop (pos + length JS_CONTENT) (data_region ashData)
                   ++ data_to_js ++ JS_CONTENT ++ after_js in
  html ashData cssSection jsContent =
  pre ++ GetSubstitution JS_CONTENT pre post jsContent ++ post.
Proof.
  intros Hcss Hdata pre post. apply eq_None_not_Some in Hcss.
  unfold html. rewrite replace_data_css.
  destruct (indexOf_Some _ _ _ Hdata) as (Hsplit & Hlen & _ & _).
  rewrite (replace_split _ JS_CONTENT jsContent _ pre post
             (indexOf_js_in_data _ _ _ Hcss Hdata)); [done|..].
  - unfold pre, post. rewrite Hsplit at 1. by rewrite <- !(assoc_L (++)).
  - unfold pre. rewrite !length_app, Hlen. lia.
Qed.

(** C10, as stated, fails for the style placeholder: the data holds the
    text [__CSS_SECTION__], and still the style block is in the head,
    where the template has its slot, and the data is as it was. *)
Lemma css_placeholder_in_data_is_kept :
  occurs_in CSS_SECTION (lit "{__CSS_SECTION__}")
  ∧ html (lit "{__CSS_SECTION__}") (style_block (lit "body{}")) (lit "main()")
    = before_css ++ style_block (lit "body{}") ++ css_to_data
        ++ lit "{__CSS_SECTION__}" ++ data_to_js ++ lit "main()" ++ after_js
  ∧ startsWith (before_css ++ CSS_SECTION)
      (html (lit "{__CSS_SECTION__}") (style_block (lit "body{}")) (lit "main()"))
    = false.
Proof. split_and!; [by eexists | by vm_compute..]. Qed.

(** C10, amended: a replacement acts on the first occurrence only and the
    data is inserted first.  The template's own [__CSS_SECTION__] stands
    before the data, so the style block always goes into the template's
    slot, and a [__CSS_SECTION__] in the data stays in the data.  The
    template's own [__JS_CONTENT__] stands after the data, so when the
    data holds that text, and the inserted style block does not, the
    script goes into the data at the first occurrence there, and the
    template's slot keeps its placeholder. *)
Theorem placeholder_text_in_data ashData cssSection jsContent :
  (∀ s search replacement pos,
      indexOf s search = Some pos →
      replace s search replacement =
        take pos s
        ++ GetSubstitution search (take pos s) (drop (pos + length search) s) replacement
        ++ drop (pos + length search) s
      ∧ ∀ earlier, earlier < pos → startsWith search (drop earlier s) = false)
  ∧ replace template ASH_DATA ashData =
      before_css ++ CSS_SECTION ++ css_to_data ++ data_region ashData
                 ++ data_to_js ++ JS_CONTENT ++ after_js
  ∧ replace (replace template ASH_DATA ashData) CSS_SECTION cssSection =
      before_css ++ css_region ashData cssSection ++ css_to_data
                 ++ data_region ashData ++ data_to_js ++ JS_CONTENT ++ after_js
  ∧ (occurs_in CSS_SECTION ashData → occurs_in CSS_SECTION (data_region ashData))
  ∧ (Forall (.≠ "$"%char) ashData → data_region ashData = ashData)
  ∧ (Forall (.≠ "$"%char) cssSection → css_region ashData cssSection = cssSection)
  ∧ (occurs_in JS_CONTENT ashData →
     ¬ occurs_in JS_CONTENT (css_region ashData cssSection) →
     ∃ pos,
       indexOf (data_region ashData) JS_CONTENT = Some pos
       ∧ let pre := before_css ++ css_region ashData cssSection ++ css_to_data
                               ++ take pos (data_region ashData) in
         let post := drop (pos + length JS_CONTENT) (data_region ashData)
                          ++ data_to_js ++ JS_CONTENT ++ after_js in
         html ashData cssSection jsContent =
         pre ++ GetSubstitution JS_CONTENT pre post jsContent ++ post).
Proof.
  split_and!.
  - intros s search replacement pos Hpos. split; [by apply replace_found|].
    by apply indexOf_Some.
  - apply replace_data.
  - apply replace_data_css.
  - apply placeholder_survives. set_solver.
  - apply GetSubstitution_plain.
  - apply GetSubstitution_plain.
  - intros Hdata Hcss.
    destruct (placeholder_survives ASH_DATA
                (before_css ++ CSS_SECTION ++ css_to_data)
                (data_to_js ++ JS_CONTENT ++ after_js) JS_CONTENT ashData)
      as [pos Hpos]; [set_solver|done|].
    exists pos. split; [done|]. by apply html_js_in_data.
Qed.

Lemma placeholder_text_in_data_witness :
  ∃ pos,
    indexOf (data_region (lit "{__JS_CONTENT__}")) JS_CONTENT = Some pos
    ∧ let pre := before_css ++ css_region (lit "{__JS_CONTENT__}") [] ++ css_to_data
                            ++ take pos (data_region (lit "{__JS_CONTENT__}")) in
      let post := drop (pos + length JS_CONTENT) (data_region (lit "{__JS_CONTENT__}"))
                       ++ data_to_js ++ JS_CONTENT ++ after_js in
      html (lit "{__JS_CONTENT__}") [] (lit "main()") =
      pre ++ GetSubstitution JS_CONTENT pre post (lit "main()") ++ post.
Proof.
  apply (placeholder_text_in_data (lit "{__JS_CONTENT__}") [] (lit "main()")).
  - exists 1. vm_compute. reflexivity.
  - intros [pos Hpos]. vm_compute in Hpos. discriminate Hpos.
Defined.

End HtmlFacts.

(** ** The script *)

Section ScriptFacts.
Import JS GenerateReport Regions Worlds.
Context {World : Type} `{!Node World}.

Lemma find_none {A} (p : A → bool) l :
  Forall (λ x, p x = false) l → find p l = None.
Proof. induction 1 as [|x l Hx _ IH]; [done|]. simpl. by rewrite Hx. Qed.

Lemma find_first {A} (p : A → bool) before x after :
  Forall (λ y, p y = false) before → p x = true →
  find p (before ++ x :: after) = Some x.
Proof.
  intros Hbefore Hx. induction Hbefore as [|y l Hy _ IH]; simpl.
  - by rewrite Hx.
  - by rewrite Hy.
Qed.

Lemma endsWith_truthy search file :
  search ≠ [] → endsWith search (lit file) = true → truthy file = true.
Proof.
  destruct file; [|done]. destruct search; [done|]. intros _.
  unfold endsWith. intros [Hlen%bool_decide_eq_true _]%andb_true_iff.
  simpl in Hlen. lia.
Qed.

(** With no bundle in the listing the script throws before it reads or
    writes any file. *)
Lemma generateReport_missing (w : World) ashDataPath outputPath files :
  readdirSync w (join [cwd w; "dist"; "assets"]%string) = inr files →
  Forall (λ file, endsWith (lit ".js") (lit file) = false) files →
  generateReport ashDataPath outputPath w =
  (inl ("Missing JavaScript bundle: " +:+ String.concat ", " files), w).
Proof.
  intros Hdir Hnone.
  unfold generateReport, findAssetFiles, mbind, io_bind, bind, process_cwd, readdir, throw.
  rewrite Hdir. by rewrite (find_none _ _ Hnone).
Qed.

(** The bundle is the first entry of the listing that ends in [.js]. *)
Lemma findAssetFiles_first (w : World) before jsFile after :
  readdirSync w (join [cwd w; "dist"; "assets"]%string) = inr (before ++ jsFile :: after) →
  Forall (λ file, endsWith (lit ".js") (lit file) = false) before →
  endsWith (lit ".js") (lit jsFile) = true →
  ∃ cssPath,
    findAssetFiles w =
    (inr {| css := cssPath;
            js := join [join [cwd w; "dist"; "assets"]; jsFile]%string |}, w).
Proof.
  intros Hdir Hbefore Hjs.
  unfold findAssetFiles, mbind, io_bind, bind, process_cwd, readdir, ret.
  rewrite Hdir. rewrite (find_first _ _ _ _ Hbefore Hjs).
  rewrite (endsWith_truthy (lit ".js")) by done. by eexists.
Qed.

(** Looking up the assets changes nothing. *)
Lemma findAssetFiles_world (w : World) : (findAssetFiles w).2 = w.
Proof.
  unfold findAssetFiles, mbind, io_bind, bind, process_cwd, readdir, ret, throw.
  destruct (readdirSync w _); [done|].
  destruct (find _ _) as [jsFile|]; [|done].
  by destruct (truthy jsFile).
Qed.

(** The file system is written at most once, by the last step, with the
    text in which all three replacements are made. *)
Lemma generateReport_world (w : World) ashDataPath outputPath :
  (generateReport ashDataPath outputPath w).2 = w
  ∨ ∃ ashData cssSection jsContent,
      readFileSync w ashDataPath = inr ashData
      ∧ (generateReport ashDataPath outputPath w).2 =
        (writeFileSync w outputPath (html ashData cssSection jsContent)).2.
Proof.
  unfold generateReport, mbind, io_bind, bind, readFile, writeFile, ret.
  pose proof (findAssetFiles_world w) as Hw.
  destruct (findAssetFiles w) as [[message|assets] w1]; simpl in Hw; subst w1;
    [by left|].
  destruct (readFileSync w ashDataPath) as [?|ashData] eqn:Hdata; [by left|].
  destruct (readFileSync w (js assets)) as [?|jsContent]; [by left|].
  destruct (css assets) as [cssPath|].
  - destruct (truthy cssPath).
    + destruct (readFileSync w cssPath) as [?|cssContent]; [by left|].
      right. exists ashData, (style_block cssContent), jsContent. split; [done|].
      by destruct (writeFileSync w outputPath _) as [[?|] ?].
    + right. exists ashData, [], jsContent. split; [done|].
      by destruct (writeFileSync w outputPath _) as [[?|] ?].
  - right. exists ashData, [], jsContent. split; [done|].
    by destruct (writeFileSync w outputPath _) as [[?|] ?].
Qed.

End ScriptFacts.

Section MainFacts.
Import JS GenerateReport Regions Worlds.
Context {World : Type} `{!Node World}.

Lemma main_too_few (w : World) argv :
  length argv < 3 → main argv w = {| exitCode := 1; stderr := None; world := w |}.
Proof. intros Hlen. unfold main. by rewrite bool_decide_true. Qed.

End MainFacts.

Section MainExamples.
Import JS GenerateReport Regions Worlds.


(** C6, as stated, fails for the first argument: in a project that has
    the sample data and a build, the run without arguments ends with
    status 1 and writes no report; with the path given it ends with
    status 0. *)
Lemma no_default_input_path :
  main ["node"; "generate-report.js"]%string built
  = {| exitCode := 1; stderr := None; world := built |}
  ∧ mem_files built !! "ash-security-report.html"%string = None
  ∧ exitCode (main ["node"; "generate-report.js"; "sample-ash-data.json"]%string built) = 0.
Proof. split_and!; by vm_compute. Qed.

End MainExamples.

Section AppFacts.
Import JS Ash App Spec.
Variable JSON_parse : string → option ASHReport.
Variable now : string.

(** C2, amended: when the document has no element with the id
    [ash-data], or has one whose text is empty, the data is the built-in
    sample report.  When the element has a text that does not parse, one
    error is logged, no data is set, and the page shows that no data is
    available.  When the text parses, the data is what it parses to.
    In each case loading is over, and nothing is fetched: the effect
    reads the document only. *)
Theorem data_loading element :
  (element = None ∨ element = Some EmptyString →
     effect JSON_parse now element initial
     = {| data := Some (sampleData now); loading := false; errors := [] |}
     ∧ App.App JSON_parse now element = ReportView 4 (sampleData now))
  ∧ (∀ jsonData,
       element = Some jsonData → jsonData ≠ EmptyString →
       JSON_parse jsonData = None →
       effect JSON_parse now element initial
       = {| data := None; loading := false;
            errors := ["Failed to parse ASH data:"%string] |}
       ∧ App.App JSON_parse now element = NoDataAvailable)
  ∧ (∀ jsonData parsed,
       element = Some jsonData → jsonData ≠ EmptyString →
       JSON_parse jsonData = Some parsed →
       effect JSON_parse now element initial
       = {| data := Some parsed; loading := false; errors := [] |}
       ∧ App.App JSON_parse now element
         = ReportView (length (findings parsed)) parsed).
Proof.
  split_and!.
  - by intros [->| ->].
  - intros jsonData -> Hne Hparse. unfold App.App, effect.
    destruct jsonData; [done|]. simpl. by rewrite Hparse.
  - intros jsonData parsed -> Hne Hparse. unfold App.App, effect.
    destruct jsonData; [done|]. simpl. by rewrite Hparse.
Qed.

End AppFacts.

Section AppExamples.
Import JS Ash App Spec.

(** C2, as stated, fails for a block that does not parse: the data stays
    unset and the page shows that no data is available, not the sample
    report. *)
Lemma unparsable_block_shows_no_data :
  reject "{ invalid json" = None
  ∧ data (effect reject "2025-01-01T00:00:00.000Z" (Some "{ invalid json"%string) initial)
    = None
  ∧ App.App reject "2025-01-01T00:00:00.000Z" (Some "{ invalid json"%string)
    = NoDataAvailable.
Proof. by split_and!. Qed.

End AppExamples.

(** ** The program on small inputs *)

Section Scenarios.
Import JS Ash Utils SummaryCards FindingsTable Spec GenerateReport Regions Worlds.

Example four_findings_counts :
  card_count <$> SummaryCards four_findings = [VNum 2; VNum 1; VNum 0; VNum 1].
Proof. by vm_compute. Qed.

Example four_findings_tools :
  tools four_findings = ["Grype"; "git-secrets"]%string.
Proof. by vm_compute. Qed.

Example four_findings_one_tool :
  filteredFindings four_findings "Grype" [CRITICAL; HIGH; MEDIUM; LOW]
  = [finding_of "Grype" CRITICAL; finding_of "Grype" CRITICAL].
Proof. by vm_compute. Qed.

Example four_findings_two_severities :
  filteredFindings four_findings "all" [HIGH; LOW]
  = [finding_of "git-secrets" HIGH; finding_of "git-secrets" LOW].
Proof. by vm_compute. Qed.

(** A key that [Object.prototype] has is tallied as text, not as a
    number, and leaves the four cards as they are. *)
Example inherited_key_tally :
  count (counts (finding_of "Bandit" "constructor" :: four_findings)) "constructor"
  = VNotNum
  ∧ card_count <$> SummaryCards (finding_of "Bandit" "constructor" :: four_findings)
    = [VNum 2; VNum 1; VNum 0; VNum 1].
Proof. by vm_compute. Qed.

(** A build with a bundle and a style sheet gives a report with the
    three contents in their places. *)
Example built_report :
  exitCode (main ["node"; "generate-report.js"; "sample-ash-data.json"; "out.html"]%string
              built) = 0
  ∧ mem_files (world (main ["node"; "generate-report.js"; "sample-ash-data.json";
                            "out.html"]%string built))
      !! "out.html"%string
    = Some (before_css ++ style_block (lit "body{}") ++ css_to_data
              ++ lit "{}" ++ data_to_js ++ lit "main()" ++ after_js).
Proof. by vm_compute. Qed.

(** A bundle that holds a dollar form is not inserted as it is: [$&] is
    replaced by the placeholder it stands for. *)
Example dollar_form_in_bundle :
  html (lit "{}") [] (lit "f($&)")
  = before_css ++ css_to_data ++ lit "{}" ++ data_to_js
      ++ lit "f(__JS_CONTENT__)" ++ after_js.
Proof. by vm_compute. Qed.

End Scenarios.

(** * More properties *)

(** ** The selection *)

Section SelectionFacts.
Import JS Ash Utils SummaryCards FindingsTable Spec Derived.

Lemma Array_filter_all {A} (p : A → bool) l :
  Forall (λ x, p x = true) l → Array_filter p l = l.
Proof. induction 1 as [|x l Hx _ IH]; [done|]. simpl. by rewrite Hx, IH. Qed.

Lemma Array_filter_app {A} (p : A → bool) l k :
  Array_filter p (l ++ k) = Array_filter p l ++ Array_filter p k.
Proof. by rewrite !Array_filter_filter, filter_app. Qed.

Lemma toggle_on prev severityKey :
  severityKey ∉ prev → toggle prev severityKey = prev ++ [severityKey].
Proof. intros Hnot%includes_false. unfold toggle. by rewrite Hnot. Qed.

Lemma toggle_off prev severityKey :
  severityKey ∈ prev →
  toggle prev severityKey =
  Array_filter (λ s, negb (bool_decide (s = severityKey))) prev.
Proof. intros Hin%includes_elem_of. unfold toggle. by rewrite Hin. Qed.

Lemma toggle_elem_of prev severityKey s :
  s ∈ toggle prev severityKey ↔
  if decide (s = severityKey) then severityKey ∉ prev else s ∈ prev.
Proof.
  destruct (decide (severityKey ∈ prev)) as [Hin|Hnot].
  - rewrite toggle_off by done.
    rewrite elem_of_Array_filter, negb_true_iff, bool_decide_eq_false.
    case_decide; subst; tauto.
  - rewrite toggle_on by done. rewrite elem_of_app, list_elem_of_singleton.
    case_decide; subst; tauto.
Qed.

Lemma toggle_NoDup prev severityKey : NoDup prev → NoDup (toggle prev severityKey).
Proof.
  intros Hnd. destruct (decide (severityKey ∈ prev)) as [Hin|Hnot].
  - rewrite toggle_off by done. rewrite Array_filter_filter. by apply NoDup_filter.
  - rewrite toggle_on by done. apply NoDup_app.
    split_and!; [done| |apply NoDup_singleton].
    by intros s Hs ->%list_elem_of_singleton.
Qed.

(** X1: a click on a severity button that is off puts the severity at
    the end of the selection; a click on one that is on removes it and
    keeps the others in their order.  So the click flips that severity in
    the selection and leaves the others as they are, and a selection
    without repeats stays without repeats.  A second click on the same
    button gives the selection back as it was when the severity was off,
    and with the severity moved to the end when it was on. *)
Theorem toggle_flips prev severityKey :
  (severityKey ∉ prev → toggle prev severityKey = prev ++ [severityKey])
  ∧ (severityKey ∈ prev →
     toggle prev severityKey = filter (λ s, s ≠ severityKey) prev)
  ∧ (∀ s, s ∈ toggle prev severityKey ↔
          if decide (s = severityKey) then severityKey ∉ prev else s ∈ prev)
  ∧ (NoDup prev → NoDup (toggle prev severityKey))
  ∧ (severityKey ∉ prev → toggle (toggle prev severityKey) severityKey = prev)
  ∧ (severityKey ∈ prev →
     toggle (toggle prev severityKey) severityKey
     = filter (λ s, s ≠ severityKey) prev ++ [severityKey])
  ∧ (NoDup prev → toggle (toggle prev severityKey) severityKey ≡ₚ prev).
Proof.
  assert (∀ l, Array_filter (λ s, negb (bool_decide (s = severityKey))) l
               = filter (λ s, s ≠ severityKey) l) as Hfilter.
  { intros l. rewrite Array_filter_filter. apply list_filter_iff. intros s.
    by rewrite Is_true_true, negb_true_iff, bool_decide_eq_false. }
  assert (severityKey ∉ prev → toggle (toggle prev severityKey) severityKey = prev)
    as Hoff.
  { intros Hnot. rewrite (toggle_on prev) by done.
    rewrite toggle_off by set_solver.
    rewrite Array_filter_app. simpl. rewrite bool_decide_true by done. simpl.
    rewrite app_nil_r. apply Array_filter_all, Forall_forall. intros s Hs.
    apply negb_true_iff, bool_decide_eq_false. by intros ->. }
  assert (severityKey ∈ prev →
          toggle (toggle prev severityKey) severityKey
          = filter (λ s, s ≠ severityKey) prev ++ [severityKey]) as Hon.
  { intros Hin. rewrite (toggle_off prev) by done. rewrite Hfilter.
    apply toggle_on. rewrite list_elem_of_filter. tauto. }
  split_and!; [apply toggle_on | | apply toggle_elem_of | apply toggle_NoDup
               | done | done |].
  - intros Hin. by rewrite toggle_off, Hfilter.
  - intros Hnd. destruct (decide (severityKey ∈ prev)) as [Hin|Hnot]; [|by rewrite Hoff].
    apply NoDup_Permutation; [by do 2 apply toggle_NoDup | done |].
    intros s. rewrite toggle_elem_of. case_decide as Hs.
    + subst s. rewrite toggle_elem_of, decide_True by done. tauto.
    + by rewrite toggle_elem_of, decide_False.
Qed.

Lemma toggle_flips_witness :
  toggle [HIGH; LOW] MEDIUM = [HIGH; LOW; MEDIUM]
  ∧ toggle [HIGH; LOW] HIGH = [LOW]
  ∧ toggle (toggle [HIGH; LOW] MEDIUM) MEDIUM = [HIGH; LOW]
  ∧ toggle (toggle [HIGH; LOW] HIGH) HIGH = [LOW; HIGH].
Proof.
  split_and!.
  - apply (toggle_flips [HIGH; LOW] MEDIUM). apply (bool_decide_unpack _). vm_compute. exact I.
  - apply (toggle_flips [HIGH; LOW] HIGH). apply (bool_decide_unpack _). vm_compute. exact I.
  - apply (toggle_flips [HIGH; LOW] MEDIUM). apply (bool_decide_unpack _). vm_compute. exact I.
  - apply (toggle_flips [HIGH; LOW] HIGH). apply (bool_decide_unpack _). vm_compute. exact I.
Defined.

End SelectionFacts.

(** ** The states of the table *)

Section StateFacts.
Import JS Ash Utils SummaryCards FindingsTable Spec Derived Rendering Expected.

Lemma reachable_well_formed findings st :
  reachable findings st → well_formed findings st.
Proof.
  intros Hr.
  apply (rtc_ind_r (R := step findings) (well_formed findings) initial);
    [ | | exact Hr].
  - split_and!; [by apply (bool_decide_unpack _) | by apply (bool_decide_unpack _)
                 | by left | done].
  - intros st1 st2 _ Hstep (Hnd & Hknown & Htab & Hsel).
    destruct Hstep; unfold well_formed; simpl; split_and!; try done.
    + by apply toggle_NoDup.
    + by apply toggle_known.
    + by left.
    + by right.
    + intros g [= <-].
      match goal with H : _ ∈ filteredFindings _ _ _ |- _ =>
        unfold filteredFindings in H;
        apply elem_of_Array_filter in H as (Hin & (Hsev & _)%matches_spec) end.
      split; [done|]. rewrite Forall_forall in Hknown. by apply Hknown.
Qed.

(** X2: in every state the table can reach, the selection holds no
    severity twice and only severities of the table, so at most four; the
    active tab is the All Tools tab or the tab of a tool that some
    finding has; and the finding in the dialog, if any, is one of the
    findings and has a severity of the table. *)
Theorem reachable_state findings st :
  reachable findings st →
  NoDup (severityFilter st)
  ∧ (∀ s, s ∈ severityFilter st → s ∈ known_severities)
  ∧ length (severityFilter st) ≤ 4
  ∧ (activeTab st = "all"%string ∨ activeTab st ∈ tool <$> findings)
  ∧ (∀ finding, selectedFinding st = Some finding →
       finding ∈ findings ∧ severity finding ∈ known_severities).
Proof.
  intros (Hnd & Hknown & Htab & Hsel)%reachable_well_formed.
  rewrite Forall_forall in Hknown. split_and!; try done.
  - change 4 with (length known_severities).
    by apply submseteq_length, NoDup_submseteq.
  - destruct Htab as [?|Htab]; [by left|right].
    by apply elem_of_Set_from.
Qed.

(** Three clicks from the initial state. *)
Lemma details_open_reachable : reachable four_findings details_open.
Proof.
  unfold reachable.
  apply (rtc_l _ _ medium_off).
  { apply (click_severity four_findings initial MEDIUM).
    apply (bool_decide_unpack _). vm_compute. exact I. }
  apply (rtc_l _ _ on_git_secrets).
  { apply (click_tool four_findings medium_off "git-secrets").
    apply (bool_decide_unpack _). vm_compute. exact I. }
  apply (rtc_l _ _ details_open); [|apply rtc_refl].
  apply (FindingsTable.view_details four_findings on_git_secrets (finding_of "git-secrets" HIGH)).
  vm_compute. left.
Qed.

Lemma reachable_state_witness :
  NoDup (severityFilter details_open)
  ∧ (∀ s, s ∈ severityFilter details_open → s ∈ known_severities)
  ∧ length (severityFilter details_open) ≤ 4
  ∧ (activeTab details_open = "all"%string
     ∨ activeTab details_open ∈ tool <$> four_findings)
  ∧ (∀ finding, selectedFinding details_open = Some finding →
       finding ∈ four_findings ∧ severity finding ∈ known_severities).
Proof. apply (reachable_state four_findings details_open). apply details_open_reachable. Defined.

Lemma icon_of_known severity :
  severity ∈ known_severities →
  ∃ config, lookup_config severityConfig severity = Some config
            ∧ icon_of severity = inr (Some (icon config)).
Proof.
  rewrite known_severities_eq. intros Hk.
  repeat (apply elem_of_cons in Hk as [->|Hk]; [by eexists|]).
  by apply elem_of_nil in Hk.
Qed.

Lemma row_known finding :
  severity finding ∈ known_severities →
  ∃ config, lookup_config severityConfig (severity finding) = Some config
    ∧ row finding =
      inr {| row_badge := (getSeverityVariant (severity finding),
                           icon config +:+ " " +:+ severity finding);
             row_tool := tool finding;
             row_message := message finding;
             row_location := location finding;
             row_details := finding |}.
Proof.
  intros (config & Hconfig & Hicon)%icon_of_known. exists config. split; [done|].
  unfold row, badge. by rewrite Hicon.
Qed.

Lemma rows_known shown :
  Forall (λ finding, severity finding ∈ known_severities) shown →
  ∃ rs, rows shown = inr rs ∧ row_details <$> rs = shown.
Proof.
  induction 1 as [|finding shown Hk _ (rs & Hrs & Hdetails)]; [by exists []|].
  destruct (row_known _ Hk) as (config & _ & Hrow).
  simpl. rewrite Hrow, Hrs. eexists. split; [done|].
  by rewrite fmap_cons, Hdetails.
Qed.

Lemma rows_unknown shown finding :
  finding ∈ shown → icon_of (severity finding) = inl TypeError →
  rows shown = inl TypeError.
Proof.
  intros Hin Hicon. induction shown as [|g shown IH]; [by apply elem_of_nil in Hin|].
  simpl. apply elem_of_cons in Hin as [<-|Hin].
  - unfold row, badge. by rewrite Hicon.
  - destruct (row g) as [[]|r]; [done|]. by rewrite IH.
Qed.

Lemma row_known_with finding :
  severity finding ∈ known_severities →
  ∃ config, lookup_config severityConfig (severity finding) = Some config
            ∧ row finding = inr (row_with config finding).
Proof. apply row_known. Qed.

Lemma rows_known_with shown :
  Forall (λ finding, severity finding ∈ known_severities) shown →
  ∃ rs, rows shown = inr rs
        ∧ Forall2 (λ r finding,
                     ∃ config,
                       lookup_config severityConfig (severity finding) = Some config
                       ∧ r = row_with config finding) rs shown.
Proof.
  induction 1 as [|finding shown Hk _ (rs & Hrs & Hall)]; [by exists []|].
  destruct (row_known_with _ Hk) as (config & Hconfig & Hrow).
  simpl. rewrite Hrow, Hrs. eexists. split; [done|].
  constructor; [by exists config | done].
Qed.

(** X3: in every state the table can reach, rendering throws nothing.
    There is one row per finding of the filtered view, in its order, and
    each shows the icon that the severity table has for the severity of
    its finding, that severity, and the tool, message and location of the
    finding; the dialog shows the same for the selected finding, if any;
    there is one button per entry of the table and one tab per tool after
    the All Tools tab.  Without the filter this would not hold: a row for
    a finding whose severity is neither in the table nor a member of
    [Object.prototype] throws a [TypeError]. *)
Theorem render_never_throws findings st :
  reachable findings st →
  (∃ view,
     render findings st = inr view
     ∧ Forall2 (λ r finding,
                  ∃ config,
                    lookup_config severityConfig (severity finding) = Some config
                    ∧ r = row_with config finding)
         (view_rows view)
         (filteredFindings findings (activeTab st) (severityFilter st))
     ∧ match selectedFinding st with
       | None => view_details view = None
       | Some finding =>
           ∃ config,
             lookup_config severityConfig (severity finding) = Some config
             ∧ view_details view = Some (details_with config finding)
       end
     ∧ view_buttons view
       = (λ '(severity, config),
            (icon config, severity, includes (severityFilter st) severity))
         <$> severityConfig
     ∧ view_tabs view = "all"%string :: tools findings)
  ∧ (∀ finding, finding ∈ findings →
       severity finding ∉ known_severities →
       includes Object_prototype_keys (severity finding) = false →
       rows findings = inl TypeError).
Proof.
  intros Hr. split.
  - pose proof (reachable_well_formed _ _ Hr) as (_ & Hknown & _ & Hsel).
    destruct (rows_known_with
                (filteredFindings findings (activeTab st) (severityFilter st)))
      as (rs & Hrs & Hall).
    { apply Forall_forall. intros g Hg. unfold filteredFindings in Hg.
      apply elem_of_Array_filter in Hg as (_ & (Hsev & _)%matches_spec).
      rewrite Forall_forall in Hknown. by apply Hknown. }
    unfold render. rewrite Hrs.
    destruct (selectedFinding st) as [g|] eqn:Hg.
    + destruct (Hsel g eq_refl) as [_ (config & Hconfig & Hicon)%icon_of_known].
      simpl. unfold badge. rewrite Hicon. eexists. split; [done|]. simpl.
      split_and!; [done| |done|done]. by exists config.
    + eexists. split; [done|]. simpl. by split_and!.
  - intros finding Hin Hunknown Hnot. apply (rows_unknown _ finding Hin).
    unfold icon_of. rewrite Hnot.
    destruct (lookup_config severityConfig (severity finding)) eqn:Hl; [|done].
    destruct Hunknown. rewrite known_severities_eq.
    revert Hl. simpl. repeat case_decide; subst; try done; set_solver.
Qed.

Lemma render_never_throws_witness :
  ∃ view,
    render four_findings details_open = inr view
    ∧ Forall2 (λ r finding,
                 ∃ config,
                   lookup_config severityConfig (severity finding) = Some config
                   ∧ r = row_with config finding)
        (view_rows view)
        (filteredFindings four_findings (activeTab details_open)
           (severityFilter details_open))
    ∧ match selectedFinding details_open with
      | None => view_details view = None
      | Some finding =>
          ∃ config,
            lookup_config severityConfig (severity finding) = Some config
            ∧ view_details view = Some (details_with config finding)
      end
    ∧ view_buttons view
      = (λ '(severity, config),
           (icon config, severity, includes (severityFilter details_open) severity))
        <$> severityConfig
    ∧ view_tabs view = "all"%string :: tools four_findings.
Proof.
  apply (render_never_throws four_findings details_open).
  apply details_open_reachable.
Defined.

(** The rows and the dialog of that state, with the icons of the table. *)
Example details_open_view :
  match render four_findings details_open with
  | inr view => Some (row_badge <$> view_rows view, details_badge <$> view_details view)
  | inl _ => None
  end
  = Some ([("warning", "🟠 HIGH"); ("success", "🟢 LOW")]%string,
          Some ("warning", "🟠 HIGH")%string).
Proof. by vm_compute. Qed.

End StateFacts.

Section ViewFacts.
Import JS Ash Utils SummaryCards FindingsTable Spec Derived Rendering.

(** X4: switching a severity off removes from the view exactly the rows
    of that severity and keeps the others in their order; switching it on
    brings back exactly the rows of that severity. *)
Theorem toggle_changes_view findings activeTab severityFilter severityKey :
  (severityKey ∈ severityFilter →
     filteredFindings findings activeTab (toggle severityFilter severityKey)
     = filter (λ f, severity f ≠ severityKey)
         (filteredFindings findings activeTab severityFilter))
  ∧ (severityKey ∉ severityFilter →
     filteredFindings findings activeTab severityFilter
     = filter (λ f, severity f ≠ severityKey)
         (filteredFindings findings activeTab (toggle severityFilter severityKey)))
  ∧ (∀ f, severity f ≠ severityKey →
       (f ∈ filteredFindings findings activeTab (toggle severityFilter severityKey)
        ↔ f ∈ filteredFindings findings activeTab severityFilter)).
Proof.
  assert (∀ S S' : list string,
            (∀ s, s ≠ severityKey → (s ∈ S ↔ s ∈ S')) → severityKey ∉ S →
            filteredFindings findings activeTab S
            = filter (λ f, severity f ≠ severityKey)
                (filteredFindings findings activeTab S')) as Hgen.
  { intros S S' Hsame Hnot. rewrite !filteredFindings_filter, list_filter_filter.
    apply list_filter_iff. intros f. split.
    - intros [Hsev Htab]. assert (severity f ≠ severityKey) by by intros <-.
      split; [done|]. split; [by apply Hsame|done].
    - intros (Hne & Hsev & Htab). split; [by apply Hsame|done]. }
  split_and!.
  - intros Hin. apply Hgen.
    + intros s Hs. by rewrite toggle_elem_of, decide_False.
    + rewrite toggle_elem_of, decide_True by done. tauto.
  - intros Hnot. apply Hgen; [|done].
    intros s Hs. by rewrite toggle_elem_of, decide_False.
  - intros f Hf. rewrite !filteredFindings_filter, !list_elem_of_filter.
    by rewrite toggle_elem_of, decide_False.
Qed.

Lemma toggle_changes_view_witness :
  filteredFindings four_findings "all" (toggle [CRITICAL; HIGH; MEDIUM; LOW] CRITICAL)
  = filter (λ f, severity f ≠ CRITICAL)
      (filteredFindings four_findings "all" [CRITICAL; HIGH; MEDIUM; LOW]).
Proof.
  apply (toggle_changes_view four_findings "all" [CRITICAL; HIGH; MEDIUM; LOW] CRITICAL).
  apply (bool_decide_unpack _). vm_compute. exact I.
Defined.

(** The selection after a run of clicks on distinct buttons. *)
Lemma toggles_elem_of prev keys s :
  NoDup keys →
  s ∈ toggles prev keys ↔ (s ∈ prev ∧ (s ∉ keys)) ∨ ((s ∉ prev) ∧ s ∈ keys).
Proof.
  unfold toggles. revert prev. induction keys as [|k keys IH]; intros prev Hnd.
  - simpl. rewrite elem_of_nil. destruct (decide (s ∈ prev)); tauto.
  - apply NoDup_cons in Hnd as [Hk Hnd]. simpl. rewrite IH by done.
    rewrite toggle_elem_of, elem_of_cons.
    destruct (decide (s ∈ prev)), (decide (s ∈ keys)); case_decide; subst; tauto.
Qed.

Lemma toggles_reachable findings st keys :
  reachable findings st → Forall (.∈ known_severities) keys →
  reachable findings
    {| selectedFinding := selectedFinding st;
       activeTab := activeTab st;
       severityFilter := toggles (severityFilter st) keys |}.
Proof.
  intros Hr Hkeys. revert st Hr. induction Hkeys as [|k keys Hk _ IH]; intros st Hr.
  - by destruct st.
  - apply (IH {| selectedFinding := selectedFinding st;
                 activeTab := activeTab st;
                 severityFilter := toggle (severityFilter st) k |}).
    eapply rtc_r; [exact Hr|]. by constructor.
Qed.

(** X5: every choice among the four severities can be selected: for
    every set of severities there is a run of clicks from the initial
    state after which exactly its known members are selected. *)
Theorem every_selection_reachable findings (wanted : list SeverityLevel) :
  ∃ st, reachable findings st
        ∧ ∀ s, s ∈ severityFilter st ↔ s ∈ wanted ∧ s ∈ known_severities.
Proof.
  set (keys := filter (λ s, s ∉ wanted) known_severities).
  exists {| selectedFinding := selectedFinding initial;
            activeTab := FindingsTable.activeTab initial;
            severityFilter := toggles (severityFilter initial) keys |}.
  split.
  - apply toggles_reachable; [apply rtc_refl|].
    apply Forall_forall. intros s Hs. unfold keys in Hs.
    by apply list_elem_of_filter in Hs as [_ ?].
  - intros s. simpl. rewrite toggles_elem_of.
    2:{ unfold keys. apply NoDup_filter. by apply (bool_decide_unpack _). }
    unfold keys. rewrite list_elem_of_filter.
    change (severityFilter initial) with known_severities.
    destruct (decide (s ∈ wanted)); tauto.
Qed.

End ViewFacts.

Section TabFacts.
Import JS Ash Utils SummaryCards FindingsTable Spec Derived Rendering.

(** Findings split by the tool they come from. *)
Lemma filter_by_tool (P : Finding → Prop) `{!∀ f, Decision (P f)}
    (ts : list string) (l : list Finding) :
  NoDup ts → Forall (λ f, tool f ∈ ts) l →
  filter P l ≡ₚ concat ((λ t, filter (λ f, P f ∧ tool f = t) l) <$> ts).
Proof.
  intros Hnd. revert l. induction Hnd as [|t ts Ht Hnd IH]; intros l Hl.
  - destruct l as [|f l]; [done|].
    apply Forall_cons in Hl as [Hf%elem_of_nil _]. done.
  - rewrite fmap_cons, concat_cons.
    rewrite <- (filter_app_complement (λ f, tool f = t) (filter P l)).
    apply Permutation_app.
    + rewrite list_filter_filter. apply reflexive_eq, list_filter_iff.
      intros f. tauto.
    + assert (filter (λ f, tool f ≠ t) (filter P l)
              = filter P (filter (λ f, tool f ≠ t) l)) as ->.
      { rewrite !list_filter_filter. apply list_filter_iff. intros f. tauto. }
      rewrite IH.
      2:{ apply Forall_forall. intros f [Hne Hin]%list_elem_of_filter.
          rewrite Forall_forall in Hl. specialize (Hl f Hin).
          apply elem_of_cons in Hl as [?|?]; done. }
      apply reflexive_eq. f_equal. apply Forall_fmap_ext, Forall_forall.
      intros t' Ht'. rewrite list_filter_filter. apply list_filter_iff.
      intros f. split; [tauto|]. intros [HP Heq]. split_and!; [done..|].
      rewrite Heq. by intros ->.
Qed.

(** X6: when no tool is called [all], the tabs of the tools split the
    view of the All Tools tab: its rows are, up to order, the rows of
    the tool tabs put together, no row twice and none missing. *)
Theorem tool_tabs_split_view findings severityFilter :
  "all"%string ∉ tool <$> findings →
  filteredFindings findings "all" severityFilter
  ≡ₚ concat ((λ t, filteredFindings findings t severityFilter) <$> tools findings).
Proof.
  intros Hall. rewrite filteredFindings_filter.
  rewrite (list_filter_iff _ (λ f, severity f ∈ severityFilter)) by (intros f; tauto).
  rewrite (filter_by_tool _ (tools findings)).
  - apply reflexive_eq. f_equal. apply Forall_fmap_ext, Forall_forall.
    intros t Ht. rewrite filteredFindings_filter. apply list_filter_iff.
    intros f. split; [tauto|]. intros [Hsev [->|Htool]]; [|done].
    destruct Hall. by apply elem_of_Set_from.
  - apply NoDup_Set_from.
  - apply Forall_forall. intros f Hf. apply elem_of_Set_from.
    by apply list_elem_of_fmap_2.
Qed.

Lemma tool_tabs_split_view_witness :
  filteredFindings four_findings "all" [CRITICAL; LOW]
  ≡ₚ concat ((λ t, filteredFindings four_findings t [CRITICAL; LOW])
             <$> tools four_findings).
Proof.
  apply (tool_tabs_split_view four_findings [CRITICAL; LOW]).
  apply (bool_decide_unpack _). vm_compute. exact I.
Defined.

(** X7: a card shows the number of rows that the table has under All
    Tools when only the severity of the card is selected. *)
Theorem card_counts_rows findings :
  card_count <$> SummaryCards findings
  = (λ severity, VNum (length (filteredFindings findings "all" [severity])))
    <$> known_severities.
Proof.
  rewrite card_counts, known_severities_eq. simpl.
  assert (∀ k, occurrences k findings
               = length (filteredFindings findings "all" [k])) as Hk.
  { intros k. unfold occurrences. rewrite filteredFindings_filter. f_equal.
    apply list_filter_iff. intros f. rewrite list_elem_of_singleton. tauto. }
  by rewrite !Hk.
Qed.

(** The tally does not depend on the order of the findings. *)
Lemma occurrences_Permutation k l1 l2 :
  l1 ≡ₚ l2 → occurrences k l1 = occurrences k l2.
Proof. intros Hp. unfold occurrences. by rewrite Hp. Qed.

(** X8: the cards depend on the findings only up to order, and the cards
    of two lists put together show the sums of their counts. *)
Theorem cards_of_rearranged_findings l1 l2 :
  (l1 ≡ₚ l2 → SummaryCards l1 = SummaryCards l2)
  ∧ shown_number <$> (card_count <$> SummaryCards (l1 ++ l2))
    = zip_with Nat.add (shown_number <$> (card_count <$> SummaryCards l1))
                       (shown_number <$> (card_count <$> SummaryCards l2)).
Proof.
  split.
  - intros Hp. unfold SummaryCards, severityConfig. simpl.
    rewrite !count_known by (rewrite known_severities_eq; set_solver).
    by rewrite !(occurrences_Permutation _ l1 l2 Hp).
  - rewrite !card_counts. simpl. unfold occurrences.
    by rewrite !filter_app, !length_app.
Qed.

Lemma cards_of_rearranged_findings_witness :
  SummaryCards four_findings = SummaryCards (reverse four_findings).
Proof.
  apply (cards_of_rearranged_findings four_findings (reverse four_findings)).
  symmetry. apply reverse_Permutation.
Defined.

Lemma recognized_all findings :
  Forall (λ f, severity f ∈ known_severities) findings →
  filter (λ f, severity f ∈ known_severities) findings = findings.
Proof.
  induction 1 as [|f l Hf _ IH]; [done|]. by rewrite filter_cons_True, IH.
Qed.

(** X9: the four cards add up to the total of the header exactly when
    every finding has one of the four severities. *)
Theorem cards_and_total findings :
  sum_list (shown_number <$> (card_count <$> SummaryCards findings))
  + length (filter (λ f, severity f ∉ known_severities) findings)
  = length findings
  ∧ (sum_list (shown_number <$> (card_count <$> SummaryCards findings))
     = length findings
     ↔ Forall (λ f, severity f ∈ known_severities) findings).
Proof.
  assert (sum_list (shown_number <$> (card_count <$> SummaryCards findings))
          = length (recognized findings)) as ->.
  { rewrite card_counts, recognized_length. simpl. lia. }
  assert (length (recognized findings)
          + length (filter (λ f, severity f ∉ known_severities) findings)
          = length findings) as Hsum.
  { unfold recognized. rewrite <- length_app.
    by rewrite (filter_app_complement (λ f, severity f ∈ known_severities)). }
  split; [done|]. split.
  - intros Heq. apply Forall_forall. intros f Hf.
    destruct (decide (severity f ∈ known_severities)) as [|Hnot]; [done|].
    assert (f ∈ filter (λ f, severity f ∉ known_severities) findings) as Hin
      by by apply list_elem_of_filter.
    destruct (filter _ findings) eqn:Hnil in Hin; [by apply elem_of_nil in Hin|].
    rewrite Hnil in Hsum. simpl in Hsum. lia.
  - intros Hall. unfold recognized. by rewrite recognized_all.
Qed.

End TabFacts.

Section RunFacts.
Import JS GenerateReport Regions Worlds Derived.
Context {World : Type} `{!Node World}.

Lemma find_Some {A} (p : A → bool) l x :
  find p l = Some x → x ∈ l ∧ p x = true.
Proof.
  induction l as [|y l IH]; [done|]. simpl. destruct (p y) eqn:Hy.
  - intros [= <-]. split; [left | done].
  - intros [Hin Hx]%IH. split; [by right | done].
Qed.

Lemma truthy_join a b : truthy (join [a; b]) = true.
Proof. unfold join. simpl. by destruct a. Qed.

Lemma generateReport_inputs (w : World) ashDataPath outputPath ashData cssSection jsContent :
  inputs w ashDataPath ashData cssSection jsContent →
  generateReport ashDataPath outputPath w =
  match writeFileSync w outputPath (html ashData cssSection jsContent) with
  | (None, w') => (inr (html ashData cssSection jsContent), w')
  | (Some message, w') => (inl message, w')
  end.
Proof.
  intros (files & jsFile & Hdir & Hjs & Hdata & Hbundle & Hstyle).
  destruct (find_Some _ _ _ Hjs) as [_ Hends].
  unfold generateReport, findAssetFiles, mbind, io_bind, bind, process_cwd,
    readdir, readFile, writeFile, ret.
  rewrite Hdir, Hjs, (endsWith_truthy (lit ".js")) by done.
  cbn [css js]. rewrite Hdata, Hbundle.
  unfold style_for in Hstyle.
  destruct (find (λ file, endsWith (lit ".css") (lit file)) files) as [cssFile|] eqn:Hcss.
  - destruct Hstyle as (cssContent & Hread & ->).
    destruct (find_Some _ _ _ Hcss) as [_ Hends'].
    rewrite (endsWith_truthy (lit ".css")) by done.
    rewrite truthy_join, Hread.
    by destruct (writeFileSync w outputPath _) as [[?|] ?].
  - subst cssSection. by destruct (writeFileSync w outputPath _) as [[?|] ?].
Qed.

Lemma generateReport_reaches_write (w : World) ashDataPath outputPath :
  (∃ message, generateReport ashDataPath outputPath w = (inl message, w))
  ∨ ∃ ashData cssSection jsContent, inputs w ashDataPath ashData cssSection jsContent.
Proof.
  unfold inputs, style_for.
  unfold generateReport, findAssetFiles, mbind, io_bind, bind, process_cwd,
    readdir, readFile, writeFile, ret, throw.
  destruct (readdirSync w _) as [?|files] eqn:Hdir; [by eauto|].
  destruct (find (λ file, endsWith (lit ".js") (lit file)) files) as [jsFile|] eqn:Hjs;
    [|by eauto].
  destruct (find_Some _ _ _ Hjs) as [_ Hends].
  rewrite (endsWith_truthy (lit ".js")) by done. cbn [css js].
  destruct (readFileSync w ashDataPath) as [?|ashData] eqn:Hdata; [by eauto|].
  destruct (readFileSync w (join [_; jsFile])) as [?|jsContent] eqn:Hbundle; [by eauto|].
  destruct (find (λ file, endsWith (lit ".css") (lit file)) files) as [cssFile|] eqn:Hcss.
  - destruct (find_Some _ _ _ Hcss) as [_ Hends'].
    rewrite (endsWith_truthy (lit ".css")) by done. rewrite truthy_join.
    destruct (readFileSync w (join [_; cssFile])) as [?|cssContent] eqn:Hstyle;
      [by eauto|].
    right. exists ashData, (style_block cssContent), jsContent, files, jsFile.
    rewrite Hcss. by eauto 10.
  - right. exists ashData, [], jsContent, files, jsFile. rewrite Hcss. by eauto 10.
Qed.

Lemma main_unfold (w : World) argv :
  main argv w =
  if bool_decide (length argv < 3) then
    {| exitCode := 1; stderr := None; world := w |}
  else
    match generateReport (argv !!! 2) (output_path argv) w with
    | (inr _, w') => {| exitCode := 0; stderr := None; world := w' |}
    | (inl message, w') => {| exitCode := 1; stderr := Some message; world := w' |}
    end.
Proof. reflexivity. Qed.

Lemma inputs_unique (w : World) ashDataPath d1 c1 j1 d2 c2 j2 :
  inputs w ashDataPath d1 c1 j1 → inputs w ashDataPath d2 c2 j2 →
  d1 = d2 ∧ c1 = c2 ∧ j1 = j2.
Proof.
  unfold inputs.
  intros (files & jsFile & Hdir & Hjs & Hdata & Hbundle & Hstyle)
         (files' & jsFile' & Hdir' & Hjs' & Hdata' & Hbundle' & Hstyle').
  rewrite Hdir in Hdir'. injection Hdir' as <-.
  rewrite Hjs in Hjs'. injection Hjs' as <-.
  rewrite Hdata in Hdata'. injection Hdata' as <-.
  rewrite Hbundle in Hbundle'. injection Hbundle' as <-.
  split_and!; [done| |done].
  unfold style_for in *.
  destruct (find (λ file, endsWith (lit ".css") (lit file)) files); [|congruence].
  destruct Hstyle as (x & Hx & ->), Hstyle' as (y & Hy & ->). congruence.
Qed.

(** X10: the run ends with status 0 exactly when there are at least
    three arguments, the asset directory can be listed and has a file
    that ends in [.js], the data file, the first such bundle and, if the
    listing has one, the first style sheet can be read, and the one write,
    of the text with all three contents in it, to the output path,
    succeeds; the world it leaves is the one that write leaves. *)
Theorem run_succeeds (w : World) argv :
  exitCode (main argv w) = 0 ↔
  3 ≤ length argv
  ∧ ∃ ashData cssSection jsContent,
      inputs w (argv !!! 2) ashData cssSection jsContent
      ∧ writeFileSync w (output_path argv) (html ashData cssSection jsContent)
        = (None, world (main argv w)).
Proof.
  rewrite main_unfold. case_bool_decide as Hlen.
  { split; [done|]. intros [? _]. lia. }
  destruct (generateReport_reaches_write w (argv !!! 2) (output_path argv))
    as [[message Hfail]|(ashData & cssSection & jsContent & Hin)].
  - rewrite Hfail. simpl. split; [done|].
    intros (_ & d & c & j & Hin & Hwrite).
    rewrite (generateReport_inputs _ _ _ _ _ _ Hin), Hwrite in Hfail. done.
  - rewrite (generateReport_inputs _ _ _ _ _ _ Hin).
    destruct (writeFileSync w (output_path argv) (html ashData cssSection jsContent))
      as [[message|] w'] eqn:Hwrite; simpl.
    + split; [done|]. intros (_ & d & c & j & Hin' & Hwrite').
      destruct (inputs_unique _ _ _ _ _ _ _ _ Hin Hin') as (<- & <- & <-).
      congruence.
    + split; [|done]. intros _. split; [lia|]. by exists ashData, cssSection, jsContent.
Qed.

(** X11: a run that does not end with status 0 ends with status 1, and
    it has either left the world as it was, or failed in the write
    itself, after everything was read and with the message of that
    write. *)
Theorem run_fails (w : World) argv :
  exitCode (main argv w) ≠ 0 →
  exitCode (main argv w) = 1
  ∧ (world (main argv w) = w
     ∨ ∃ ashData cssSection jsContent message,
         inputs w (argv !!! 2) ashData cssSection jsContent
         ∧ writeFileSync w (output_path argv) (html ashData cssSection jsContent)
           = (Some message, world (main argv w))
         ∧ stderr (main argv w) = Some message).
Proof.
  rewrite main_unfold. case_bool_decide as Hlen; [by auto|].
  destruct (generateReport_reaches_write w (argv !!! 2) (output_path argv))
    as [[message Hfail]|(ashData & cssSection & jsContent & Hin)].
  - rewrite Hfail. by auto.
  - rewrite (generateReport_inputs _ _ _ _ _ _ Hin).
    destruct (writeFileSync w (output_path argv) (html ashData cssSection jsContent))
      as [[message|] w'] eqn:Hwrite; simpl; [|done].
    intros _. split; [done|]. right.
    by exists ashData, cssSection, jsContent, message.
Qed.

End RunFacts.

Section RunExamples.
Import JS GenerateReport Regions Worlds Derived.

Lemma run_fails_witness :
  exitCode (main ["node"; "generate-report.js"; "missing.json"]%string built) = 1
  ∧ (world (main ["node"; "generate-report.js"; "missing.json"]%string built) = built
     ∨ ∃ ashData cssSection jsContent message,
         inputs built (["node"; "generate-report.js"; "missing.json"]%string !!! 2)
           ashData cssSection jsContent
         ∧ writeFileSync built
             (output_path ["node"; "generate-report.js"; "missing.json"]%string)
             (html ashData cssSection jsContent)
           = (Some message,
              world (main ["node"; "generate-report.js"; "missing.json"]%string built))
         ∧ stderr (main ["node"; "generate-report.js"; "missing.json"]%string built)
           = Some message).
Proof.
  apply (run_fails built ["node"; "generate-report.js"; "missing.json"]%string).
  vm_compute. discriminate.
Defined.

End RunExamples.

Section VerbatimFacts.
Import JS GenerateReport Regions Worlds Derived.

(** A text without a dollar form is inserted as it is. *)
Lemma GetSubstitution_verbatim matched preceding following replacement :
  has_dollar_form replacement = false →
  GetSubstitution matched preceding following replacement = replacement.
Proof.
  induction replacement as [|c rest IH]; [done|].
  destruct (decide (c = "$"%char)) as [->|Hc].
  - destruct rest as [|d rest']; [done|].
    rewrite GetSubstitution_dollar. cbn [has_dollar_form].
    rewrite decide_True by done. intros Hrest.
    repeat case_decide; try done.
    rewrite IH; [done|]. cbn [has_dollar_form]. by rewrite decide_False.
  - rewrite GetSubstitution_cons by done. cbn [has_dollar_form].
    rewrite decide_False by done. intros Hrest. by rewrite IH.
Qed.

(** X12: when none of the three contents holds a dollar form, and
    neither the data nor the style block holds the text
    [__JS_CONTENT__], the report is the template with each placeholder
    replaced by its content, unchanged.  Other placeholder texts in the
    contents, and [__JS_CONTENT__] in the bundle, do no harm. *)
Theorem html_verbatim ashData cssSection jsContent :
  has_dollar_form ashData = false →
  has_dollar_form cssSection = false →
  has_dollar_form jsContent = false →
  ¬ occurs_in JS_CONTENT ashData →
  ¬ occurs_in JS_CONTENT cssSection →
  html ashData cssSection jsContent =
  before_css ++ cssSection ++ css_to_data ++ ashData ++ data_to_js
             ++ jsContent ++ after_js.
Proof.
  intros Hd Hc Hj Hnd Hnc.
  assert (data_region ashData = ashData) as Hdata
    by by apply GetSubstitution_verbatim.
  assert (css_region ashData cssSection = cssSection) as Hcss
    by by apply GetSubstitution_verbatim.
  rewrite html_regular by (by rewrite ?Hdata, ?Hcss).
  rewrite Hdata, Hcss, GetSubstitution_verbatim by done.
  by rewrite <- !(assoc_L (++)).
Qed.

Lemma html_verbatim_witness :
  html (lit "{}") [] (lit "$(main)")
  = before_css ++ [] ++ css_to_data ++ lit "{}" ++ data_to_js
               ++ lit "$(main)" ++ after_js.
Proof.
  apply (html_verbatim (lit "{}") [] (lit "$(main)")); try reflexivity.
  - intros [pos Hpos]. vm_compute in Hpos. discriminate Hpos.
  - intros [pos Hpos]. vm_compute in Hpos. discriminate Hpos.
Defined.

End VerbatimFacts.

Section DollarFacts.
Import JS GenerateReport Regions Worlds Derived.

Lemma GetSubstitution_form matched preceding following plain d rest :
  Forall (.≠ "$"%char) plain → has_dollar_form rest = false →
  GetSubstitution matched preceding following (plain ++ "$"%char :: d :: rest) =
  plain ++
  (if decide (d = "$"%char) then "$"%char :: rest
   else if decide (d = "&"%char) then matched ++ rest
   else if decide (d = "`"%char) then preceding ++ rest
   else if decide (d = "'"%char) then following ++ rest
   else "$"%char :: d :: rest).
Proof.
  intros Hplain Hrest. rewrite GetSubstitution_plain_app by done. f_equal.
  rewrite GetSubstitution_dollar.
  repeat case_decide; rewrite ?(GetSubstitution_verbatim _ _ _ rest) by done; try done.
  rewrite GetSubstitution_verbatim; [done|].
  cbn [has_dollar_form]. by rewrite decide_False.
Qed.

(** X13: a dollar form in the bundle is not inserted as it is.  With
    data and style as in X12, and a bundle that holds one dollar form
    after a stretch without dollars: [$$] comes out as one dollar, [$&]
    as the placeholder text, [$`] as the whole document before the
    script slot, and [$'] as the end of the document after it. *)
Theorem dollar_form_in_bundle_expands ashData cssSection plain rest :
  has_dollar_form ashData = false →
  has_dollar_form cssSection = false →
  ¬ occurs_in JS_CONTENT ashData →
  ¬ occurs_in JS_CONTENT cssSection →
  Forall (.≠ "$"%char) plain →
  has_dollar_form rest = false →
  let pre := before_css ++ cssSection ++ css_to_data ++ ashData ++ data_to_js in
  html ashData cssSection (plain ++ lit "$$" ++ rest)
  = pre ++ (plain ++ lit "$" ++ rest) ++ after_js
  ∧ html ashData cssSection (plain ++ lit "$&" ++ rest)
    = pre ++ (plain ++ JS_CONTENT ++ rest) ++ after_js
  ∧ html ashData cssSection (plain ++ lit "$`" ++ rest)
    = pre ++ (plain ++ pre ++ rest) ++ after_js
  ∧ html ashData cssSection (plain ++ lit "$'" ++ rest)
    = pre ++ (plain ++ after_js ++ rest) ++ after_js.
Proof.
  intros Hd Hc Hnd Hnc Hplain Hrest pre.
  assert (data_region ashData = ashData) as Hdata
    by by apply GetSubstitution_verbatim.
  assert (css_region ashData cssSection = cssSection) as Hcss
    by by apply GetSubstitution_verbatim.
  assert (∀ jsContent,
            html ashData cssSection jsContent
            = pre ++ GetSubstitution JS_CONTENT pre after_js jsContent ++ after_js)
    as Hhtml.
  { intros jsContent. rewrite html_regular by (by rewrite ?Hdata, ?Hcss).
    by rewrite Hdata, Hcss. }
  rewrite !Hhtml.
  split_and!; f_equal; f_equal;
    (change (lit ?s ++ rest) with (lit s ++ rest); cbn [lit list_ascii_of_string app];
     by rewrite GetSubstitution_form).
Qed.

Lemma dollar_form_in_bundle_expands_witness :
  html (lit "{}") [] (lit "a=" ++ lit "$$" ++ lit ";")
  = (before_css ++ [] ++ css_to_data ++ lit "{}" ++ data_to_js)
    ++ (lit "a=" ++ lit "$" ++ lit ";") ++ after_js.
Proof.
  apply (dollar_form_in_bundle_expands (lit "{}") [] (lit "a=") (lit ";"));
    try reflexivity.
  - intros [pos Hpos]. vm_compute in Hpos. discriminate Hpos.
  - intros [pos Hpos]. vm_compute in Hpos. discriminate Hpos.
  - apply (bool_decide_unpack _). vm_compute. exact I.
Defined.

End DollarFacts.

(** * The run and the table, once more *)

Section RunClaims.
Import JS GenerateReport Regions Worlds Derived.
Context {World : Type} `{!Node World}.

(** Once everything is read, the run is its one write. *)
Lemma main_inputs (w : World) argv ashData cssSection jsContent :
  3 ≤ length argv →
  inputs w (argv !!! 2) ashData cssSection jsContent →
  main argv w =
  after_write (writeFileSync w (output_path argv) (html ashData cssSection jsContent)).
Proof.
  intros Hlen Hin. rewrite main_unfold, bool_decide_false by lia.
  rewrite (generateReport_inputs _ _ _ _ _ _ Hin). unfold after_write.
  by destruct (writeFileSync w (output_path argv) _) as [[?|] ?].
Qed.


(** C6, amended: without the first argument the script exits with status
    1 and no error message, nothing read and nothing written: the input
    path has no default.  With the first argument only, or with an empty
    second one, the report is written to [ash-security-report.html]; with
    a second argument that is not empty, to that path. *)
Theorem argument_defaults (w : World) argv :
  (length argv < 3 →
     main argv w = {| exitCode := 1; stderr := None; world := w |})
  ∧ (∀ node script ashDataPath,
       argv = [node; script; ashDataPath] →
       main argv w =
       main [node; script; ashDataPath; "ash-security-report.html"%string] w)
  ∧ (∀ node script ashDataPath,
       argv = [node; script; ashDataPath; EmptyString] →
       main argv w =
       main [node; script; ashDataPath; "ash-security-report.html"%string] w)
  ∧ (∀ node script ashDataPath ashData cssSection jsContent,
       inputs w ashDataPath ashData cssSection jsContent →
       main [node; script; ashDataPath] w
       = after_write (writeFileSync w "ash-security-report.html"
                        (html ashData cssSection jsContent))
       ∧ main [node; script; ashDataPath; EmptyString] w
         = after_write (writeFileSync w "ash-security-report.html"
                          (html ashData cssSection jsContent))
       ∧ ∀ given more,
           given ≠ EmptyString →
           main (node :: script :: ashDataPath :: given :: more) w
           = after_write (writeFileSync w given (html ashData cssSection jsContent))).
Proof.
  split_and!.
  - apply main_too_few.
  - by intros node script ashDataPath ->.
  - by intros node script ashDataPath ->.
  - intros node script ashDataPath ashData cssSection jsContent Hin. split_and!.
    + by apply (main_inputs w [node; script; ashDataPath]); [simpl; lia|].
    + by apply (main_inputs w [node; script; ashDataPath; EmptyString]); [simpl; lia|].
    + intros given more Hgiven.
      rewrite (main_inputs w (node :: script :: ashDataPath :: given :: more)
                 ashData cssSection jsContent); [|simpl; lia|done].
      unfold output_path. simpl. by destruct given.
Qed.

End RunClaims.

Section RunClaimsExamples.
Import JS GenerateReport Regions Worlds Derived.


Lemma built_inputs :
  inputs built "sample-ash-data.json" (lit "{}") (style_block (lit "body{}"))
    (lit "main()").
Proof.
  exists ["index-abc123.css"; "index-abc123.js"]%string, "index-abc123.js"%string.
  split_and!; try reflexivity. exists (lit "body{}"). split; reflexivity.
Qed.

Lemma argument_defaults_witness :
  main ["node"; "generate-report.js"; "sample-ash-data.json"]%string built
  = after_write (writeFileSync built "ash-security-report.html"
                   (html (lit "{}") (style_block (lit "body{}")) (lit "main()")))
  ∧ main ["node"; "generate-report.js"; "sample-ash-data.json"; "out.html"]%string built
    = after_write (writeFileSync built "out.html"
                     (html (lit "{}") (style_block (lit "body{}")) (lit "main()"))).
Proof.
  destruct (argument_defaults built []) as (_ & _ & _ & Hpaths).
  destruct (Hpaths "node"%string "generate-report.js"%string
              "sample-ash-data.json"%string _ _ _ built_inputs)
    as (Hdefault & _ & Hgiven).
  split; [exact Hdefault|]. apply (Hgiven "out.html"%string []). discriminate.
Defined.

End RunClaimsExamples.

(** ** The severity table on the heap *)

Section StoreFacts.
Import JS Ash Utils SummaryCards FindingsTable Rendering Store.

Lemma SummaryCards_op_spec findings h :
  SummaryCards_op findings initial_heap = (SummaryCards findings, initial_heap)
  ∧ (SummaryCards_op findings h).2 = h.
Proof. done. Qed.

Lemma icon_op_spec key h :
  icon_op key initial_heap = (icon_of key, initial_heap) ∧ (icon_op key h).2 = h.
Proof. done. Qed.

Lemma badge_op_spec severity h :
  badge_op severity initial_heap = (badge severity, initial_heap)
  ∧ (badge_op severity h).2 = h.
Proof. done. Qed.

Lemma row_op_spec finding h :
  row_op finding initial_heap = (row finding, initial_heap)
  ∧ (row_op finding h).2 = h.
Proof. done. Qed.

Lemma rows_op_heap shown h : (rows_op shown h).2 = h.
Proof.
  revert h. induction shown as [|finding shown IH]; intros h; [done|].
  cbn [rows_op]. unfold mbind, op_mbind, op_bind.
  destruct (row_op finding h) as [r h'] eqn:Hrow.
  assert (h' = h) as -> by (by rewrite <- (proj2 (row_op_spec finding h)), Hrow).
  destruct r as [e|r]; [done|].
  specialize (IH h). by destruct (rows_op shown h) as [rs h''].
Qed.

Lemma rows_op_initial shown :
  rows_op shown initial_heap = (rows shown, initial_heap).
Proof.
  induction shown as [|finding shown IH]; [done|].
  cbn [rows_op rows]. unfold mbind, op_mbind, op_bind.
  rewrite (proj1 (row_op_spec finding initial_heap)).
  destruct (row finding) as [e|r]; [done|]. rewrite IH.
  by destruct (rows shown).
Qed.

Lemma details_op_spec selected h :
  details_op selected initial_heap = (details selected, initial_heap)
  ∧ (details_op selected h).2 = h.
Proof. destruct selected; done. Qed.

Lemma render_op_heap findings st h : (render_op findings st h).2 = h.
Proof.
  unfold render_op, mbind, op_mbind, op_bind. cbn [entries].
  pose proof (rows_op_heap
                (filteredFindings findings (activeTab st) (severityFilter st)) h) as Hh.
  destruct (rows_op _ h) as [rs h']. simpl in Hh. subst h'.
  destruct rs as [e|rs]; [done|].
  pose proof (proj2 (details_op_spec (selectedFinding st) h)) as Hd.
  destruct (details_op _ h) as [d h']. simpl in Hd. by subst h'.
Qed.

Lemma render_op_initial findings st :
  render_op findings st initial_heap = (render findings st, initial_heap).
Proof.
  unfold render_op, render, mbind, op_mbind, op_bind. cbn [entries].
  rewrite rows_op_initial. destruct (rows _) as [e|rs]; [done|].
  rewrite (proj1 (details_op_spec (selectedFinding st) initial_heap)).
  by destruct (details _).
Qed.

Lemma run_heap o h : (run o h).2 = h.
Proof.
  destruct o as [findings|findings st|e st]; [done| |done].
  unfold run, mbind, op_mbind, op_bind.
  pose proof (render_op_heap findings st h) as Hh.
  by destruct (render_op findings st h).
Qed.

Lemma run_all_heap os h : (run_all os h).2 = h.
Proof.
  revert h. induction os as [|o os IH]; intros h; [done|].
  cbn [run_all]. unfold mbind, op_mbind, op_bind.
  pose proof (run_heap o h) as Hh. destruct (run o h) as [[] h']. simpl in Hh.
  subst h'. apply IH.
Qed.

(** The object is not frozen: an assignment is seen by the next read. *)
Lemma assign_is_seen key config h :
  (property key (assign key config h).2).1 = Some config.
Proof.
  unfold assign, property. simpl.
  induction (config_object h) as [|[k c] table IH]; simpl.
  - by rewrite decide_True.
  - destruct (decide (k = key)) as [->|Hne]; simpl.
    + by rewrite decide_True.
    + by rewrite decide_False.
Qed.


End StoreFacts.
